(** * FacebookStrategy: the OAuth 2.0 authorization-code flow of
    [facebookStrategy.ts], embedded as Rocq functions.

    JavaScript strings are [string]s (sequences of 8-bit units, enough for
    the ASCII of query strings and of the escape table), JavaScript objects
    that are iterated with [Object.entries] are the lists of their entries,
    in the order [Object.entries] yields them (keys are distinct), and the
    two outbound effects of the class, [fetch] and [ctx.response.redirect],
    are threaded through an explicit [World] that records them. *)

From Stdlib Require Import String Ascii List Bool Arith Lia ZArith DecimalString.
Import ListNotations.

Local Open Scope list_scope.
Local Open Scope string_scope.
Local Set Warnings "-register-all".

(** ** JavaScript string primitives used by the class *)

Module JSString.

(** [s.slice(n)] for [0 <= n]: the string without its first [n] units. *)
Fixpoint drop (n : nat) (s : string) : string :=
  match n, s with
  | O, _ => s
  | S _, EmptyString => EmptyString
  | S n', String _ s' => drop n' s'
  end.

(** [s.slice(a, b)] for [0 <= a <= b]; both ends are clamped to the length. *)
Definition slice (a b : nat) (s : string) : string := substring a (b - a) s.

(** [s.slice(0, -1)]: the string without its last unit. *)
Fixpoint slice_0_m1 (s : string) : string :=
  match s with
  | EmptyString => EmptyString
  | String _ EmptyString => EmptyString
  | String c s' => String c (slice_0_m1 s')
  end.

(** [s[s.length - 1]]: the last unit, [undefined] ([None]) on the empty
    string. *)
Fixpoint last_char (s : string) : option ascii :=
  match s with
  | EmptyString => None
  | String c EmptyString => Some c
  | String _ s' => last_char s'
  end.

(** [s.includes(key)]. *)
Fixpoint includes (key s : string) : bool :=
  if prefix key s then true
  else match s with
       | EmptyString => false
       | String _ s' => includes key s'
       end.

(** [s.replace(key, lit)] with a string pattern: the leftmost occurrence of
    [key] is replaced, and [s] is returned as it is when there is none.  The
    replacement strings of this program hold no substitution pattern (a lone
    [$] stands for itself). *)
Fixpoint replace (key lit s : string) : string :=
  if prefix key s then lit ++ drop (String.length key) s
  else match s with
       | EmptyString => EmptyString
       | String c s' => String c (replace key lit s')
       end.

(** [s.split(sep)] for a separator of one unit, as both call sites have it:
    the pieces between the separators, never an empty array. *)
Fixpoint split_from (sep : ascii) (piece : string) (s : string) : list string :=
  match s with
  | EmptyString => [piece]
  | String c s' =>
      if Ascii.eqb c sep then piece :: split_from sep EmptyString s'
      else split_from sep (piece ++ String c EmptyString) s'
  end.

Definition split (sep : ascii) (s : string) : list string :=
  split_from sep EmptyString s.

(** [pieces.join(sep)]. *)
Fixpoint join (sep : string) (pieces : list string) : string :=
  match pieces with
  | [] => EmptyString
  | [p] => p
  | p :: rest => p ++ sep ++ join sep rest
  end.

End JSString.
Import JSString.

(** ** JavaScript values *)

(** What [response.json()] can yield, plus [undefined].  [num] is the type of
    numbers; the class only copies numbers and prints them into a URL, so
    they stay abstract together with their printing [num_to_string]. *)
Inductive jsval (num : Type) : Type :=
| JUndefined
| JNull
| JBool (b : bool)
| JNum (n : num)
| JStr (s : string)
| JArr (elems : list (jsval num))
| JObj (props : list (string * jsval num)).

Arguments JUndefined {num}.
Arguments JNull {num}.
Arguments JBool {num} b.
Arguments JNum {num} n.
Arguments JStr {num} s.
Arguments JArr {num} elems.
Arguments JObj {num} props.

(** Own-property lookup in a list of entries. *)
Fixpoint lookup {V : Type} (k : string) (entries : list (string * V)) : option V :=
  match entries with
  | [] => None
  | (k', v) :: rest => if String.eqb k k' then Some v else lookup k rest
  end.

(** What is thrown: a [TypeError] of the engine, the rejection of [fetch] or
    of [response.json()], or an [Error] built by the class. *)
Inductive thrown : Type :=
| TypeError
| Rejected (reason : string)
| ErrorThrown (message : string).

(** The completion of a call: a value or a throw (for an [async] method, the
    value its promise resolves to or the reason it rejects with). *)
Inductive outcome (A : Type) : Type :=
| Returned (a : A)
| Thrown (e : thrown).

Arguments Returned {A} a.
Arguments Thrown {A} e.

Section Values.

Context {num : Type}.
Variable num_to_string : num -> string.

(** [v.k] for the property names this class reads ([type], [access_token],
    [token_type], [expires_in], [data], [user_id]): none of them is found on
    a prototype, so off a plain object the result is [undefined]; reading a
    property of [undefined] or [null] throws. *)
Definition get_prop (v : jsval num) (k : string) : outcome (jsval num) :=
  match v with
  | JUndefined | JNull => Thrown TypeError
  | JObj props =>
      match lookup k props with
      | Some x => Returned x
      | None => Returned JUndefined
      end
  | _ => Returned JUndefined
  end.

(** [value + '&']'s coercion of [value] to a string.  A parsed JSON object
    prints as [[object Object]] unless it has an own (hence not callable)
    [toString], in which case the conversion throws; an array prints its
    elements joined by commas, [null] and [undefined] elements as nothing. *)
Fixpoint ToString (v : jsval num) : outcome string :=
  match v with
  | JUndefined => Returned "undefined"
  | JNull => Returned "null"
  | JBool true => Returned "true"
  | JBool false => Returned "false"
  | JNum n => Returned (num_to_string n)
  | JStr s => Returned s
  | JObj props =>
      match lookup "toString" props with
      | Some _ => Thrown TypeError
      | None => Returned "[object Object]"
      end
  | JArr elems =>
      let elem (x : jsval num) : outcome string :=
        match x with
        | JUndefined | JNull => Returned ""
        | _ => ToString x
        end in
      (fix join_elems (l : list (jsval num)) : outcome string :=
         match l with
         | [] => Returned ""
         | [x] => elem x
         | x :: rest =>
             match elem x with
             | Thrown e => Thrown e
             | Returned sx =>
                 match join_elems rest with
                 | Thrown e => Thrown e
                 | Returned sr => Returned (sx ++ "," ++ sr)
                 end
             end
         end) elems
  end.

End Values.

(** ** The class *)

(** [Options] of [types.ts]: string-valued configuration fields, as the list
    of the object's entries. *)
Definition Options : Type := list (string * string).

(** What the network answers to a request: [fetch] rejects, or it resolves
    to a response whose [json()] rejects or yields a value. *)
Inductive Body (num : Type) : Type :=
| NotJson (reason : string)
| Json (v : jsval num).

Arguments NotJson {num} reason.
Arguments Json {num} v.

Inductive Response (num : Type) : Type :=
| NetworkError (reason : string)
| Resolved (body : Body num).

Arguments NetworkError {num} reason.
Arguments Resolved {num} body.

(** The effects of the class: the URLs handed to [fetch] and the URLs handed
    to [ctx.response.redirect], oldest first. *)
Record World : Type := mkWorld {
  fetched : list string;
  redirected : list string
}.

Definition M (A : Type) : Type := World -> outcome A * World.

Definition ret {A : Type} (a : A) : M A := fun w => (Returned a, w).

Definition throw {A : Type} (e : thrown) : M A := fun w => (Thrown e, w).

Definition bind {A B : Type} (m : M A) (k : A -> M B) : M B :=
  fun w =>
    match m w with
    | (Returned a, w') => k a w'
    | (Thrown e, w') => (Thrown e, w')
    end.

Definition lift {A : Type} (o : outcome A) : M A := fun w => (o, w).

(** [try { body } catch (err) { handler }]: effects done before the throw
    stay done. *)
Definition try_catch {A : Type} (body : M A) (handler : thrown -> M A) : M A :=
  fun w =>
    match body w with
    | (Returned a, w') => (Returned a, w')
    | (Thrown e, w') => handler e w'
    end.

Notation "x <- m ;; k" := (bind m (fun x => k))
  (at level 61, m at next level, right associativity).

(** [new Error(message)]; [cause] is the caught value that a template
    literal appends to the message. *)
Record JSError : Type := mkError {
  message : string;
  cause : option thrown
}.

Definition ConfigurationError : thrown :=
  ErrorThrown "ERROR in FacebookStrategy constructor: Missing required arguments".

Definition AuthorizationDenied : JSError :=
  mkError "ERROR in getAuthToken: Received an error from auth token code request." None.

Definition OAuthExceptionError : JSError :=
  mkError "ERROR in getAuthToken: Token request threw OAuth exception." None.

Definition TokenExchangeFailure (err : thrown) : JSError :=
  mkError "ERROR in getAuthToken: Unable to obtain token - " (Some err).

Definition IdentityLookupFailure (err : thrown) : JSError :=
  mkError "ERROR in getAuthData: Unable to obtain auth data - " (Some err).

Record FacebookStrategy : Type := mkStrategy {
  name : string;
  options : Options;
  uriFromParams : string;
  authURL : string;
  tokenURL : string;
  authDataURL : string
}.

(** The percent-escape table of [parseCode], in the order [Object.keys]
    yields its keys. *)
Definition replacements : list (string * string) :=
  [ ("%24", "$"); ("%26", "&"); ("%2B", "+"); ("%2C", ","); ("%2F", "/");
    ("%3A", ":"); ("%3B", ";"); ("%3D", "="); ("%3F", "?"); ("%40", "@") ].

(** [replacements[key]]; a missing key would read [undefined], which
    [replace] prints. *)
Definition replacement_of (key : string) : string :=
  match lookup key replacements with
  | Some lit => lit
  | None => "undefined"
  end.

(** [while (encodedCode.includes(key)) encodedCode = encodedCode.replace(key, lit)],
    run for at most [fuel] tests of its condition; [None] when they do not
    suffice. *)
Fixpoint while_includes (fuel : nat) (key lit encodedCode : string) : option string :=
  match fuel with
  | O => None
  | S fuel' =>
      if includes key encodedCode
      then while_includes fuel' key lit (replace key lit encodedCode)
      else Some encodedCode
  end.

(** The [for] loop over [toReplaceArray]. *)
Fixpoint for_keys (fuel : nat) (toReplaceArray : list string) (encodedCode : string)
  : option string :=
  match toReplaceArray with
  | [] => Some encodedCode
  | key :: rest =>
      match while_includes fuel key (replacement_of key) encodedCode with
      | Some encodedCode' => for_keys fuel rest encodedCode'
      | None => None
      end
  end.

Definition parseCode_fuel (fuel : nat) (encodedCode : string) : option string :=
  for_keys fuel (map fst replacements) encodedCode.

(** [parseCode]: one more test than the string has units is enough for each
    of the ten loops ([parseCode_fuel_enough] below), so the second branch is
    never taken. *)
Definition parseCode (encodedCode : string) : string :=
  match parseCode_fuel (S (String.length encodedCode)) encodedCode with
  | Some decoded => decoded
  | None => encodedCode
  end.

Section Strategy.

Context {num : Type}.
Variable num_to_string : num -> string.

(** The network: what it answers to a request, given the requests made
    before it. *)
Variable net : list string -> string -> Response num.

Definition jsobject : Type := list (string * jsval num).

(** [Object.entries] of an [Options] object. *)
Definition entries_of (o : Options) : jsobject :=
  map (fun kv => (fst kv, JStr (snd kv))) o.

(** [o.k] on an [Options] object. *)
Definition option_prop (o : Options) (k : string) : jsval num :=
  match lookup k o with
  | Some v => JStr v
  | None => JUndefined
  end.

(** [!o.k] on an [Options] object: the field is absent or the empty string. *)
Definition missing (o : Options) (k : string) : bool :=
  match lookup k o with
  | Some v => String.eqb v ""
  | None => true
  end.

(** [key === skip]. *)
Definition is_skipped (key : string) (skip : option string) : bool :=
  match skip with
  | Some k => String.eqb key k
  | None => false
  end.

(** The [for] loop of [constructURI] over the rest of [paramArray]. *)
Fixpoint constructURI_loop (paramArray : jsobject) (skip : option string)
  (paramString : string) : outcome string :=
  match paramArray with
  | [] => Returned paramString
  | (key, value) :: rest =>
      if is_skipped key skip then constructURI_loop rest skip paramString
      else
        match ToString num_to_string value with
        | Thrown e => Thrown e
        | Returned v =>
            constructURI_loop rest skip ((paramString ++ (key ++ "=")) ++ (v ++ "&"))
        end
  end.

Definition constructURI (paramArray : jsobject) (skip : option string)
  : outcome string :=
  match constructURI_loop paramArray skip "" with
  | Thrown e => Thrown e
  | Returned paramString =>
      match last_char paramString with
      | Some c =>
          if Ascii.eqb c "&" then Returned (slice_0_m1 paramString)
          else Returned paramString
      | None => Returned paramString
      end
  end.

Definition constructor (opts : Options) : outcome FacebookStrategy :=
  if missing opts "client_id" || missing opts "redirect_uri"
     || missing opts "state" || missing opts "client_secret"
  then Thrown ConfigurationError
  else
    match constructURI (entries_of opts) (Some "client_secret") with
    | Thrown e => Thrown e
    | Returned uri =>
        Returned
          {| name := "facebook";
             options := opts;
             uriFromParams := uri;
             authURL := "https://www.facebook.com/v9.0/dialog/oauth?";
             tokenURL := "https://graph.facebook.com/v9.0/oauth/access_token?";
             authDataURL := "https://graph.facebook.com/debug_token?" |}
    end.

(** [AuthData] and [TokenData] of [types.ts]; the fields hold whatever the
    provider's JSON held. *)
Record TokenData : Type := mkTokenData {
  access_token : jsval num;
  token_type : jsval num;
  expires_in : jsval num
}.

Record UserInfo : Type := mkUserInfo {
  provider : string;
  providerUserId : jsval num
}.

Record AuthData : Type := mkAuthData {
  tokenData : TokenData;
  userInfo : UserInfo
}.

(** What [router] and the two exchange steps resolve to. *)
Inductive retval : Type :=
| VUndefined
| VAuthData (authData : AuthData)
| VError (err : JSError).

(** [await fetch(url)]. *)
Definition fetch (url : string) : M (Body num) :=
  fun w =>
    let w' := mkWorld (fetched w ++ [url])%list (redirected w) in
    match net (fetched w) url with
    | NetworkError reason => (Thrown (Rejected reason), w')
    | Resolved body => (Returned body, w')
    end.

(** [await data.json()]. *)
Definition json (body : Body num) : M (jsval num) :=
  match body with
  | NotJson reason => throw (Rejected reason)
  | Json v => ret v
  end.

(** [ctx.response.redirect(url)]. *)
Definition redirect (url : string) : M retval :=
  fun w => (Returned VUndefined, mkWorld (fetched w) (redirected w ++ [url])%list).

(** [v === s] for a string literal [s]. *)
Definition strict_eq_string (v : jsval num) (s : string) : bool :=
  match v with
  | JStr t => String.eqb t s
  | _ => false
  end.

(** An [Options] field in a string concatenation: [undefined] prints as
    such. *)
Definition field_text (o : Options) (k : string) : string :=
  match lookup k o with
  | Some v => v
  | None => "undefined"
  end.

Definition getAuthData (this : FacebookStrategy) (parsed : jsval num) : M retval :=
  at_ <- lift (get_prop parsed "access_token") ;;
  tt_ <- lift (get_prop parsed "token_type") ;;
  ei_ <- lift (get_prop parsed "expires_in") ;;
  let authData :=
    mkAuthData (mkTokenData at_ tt_ ei_) (mkUserInfo "" (JStr "")) in
  let authOptions : jsobject :=
    [ ("input_token", access_token (tokenData authData));
      ("access_token",
       JStr (field_text (options this) "client_id" ++ "|"
             ++ field_text (options this) "client_secret")) ] in
  try_catch
    (uri <- lift (constructURI authOptions None) ;;
     data <- fetch (authDataURL this ++ uri) ;;
     data <- json data ;;
     inner <- lift (get_prop data "data") ;;
     user_id <- lift (get_prop inner "user_id") ;;
     ret (VAuthData (mkAuthData (tokenData authData) (mkUserInfo (name this) user_id))))
    (fun err => ret (VError (IdentityLookupFailure err))).

(** Lines 132-137 of [getAuthToken]: [URI1[1]] is [undefined] when the
    query string holds no [=], and [split] on it throws. *)
Definition extractFragment (OGURI : string) : outcome string :=
  let URI1 := split "=" OGURI in
  match nth_error URI1 1 with
  | None => Thrown TypeError
  | Some rest =>
      let URI2 := split "&" rest in
      match nth_error URI2 0 with
      | None => Thrown TypeError
      | Some fragment => Returned fragment
      end
  end.

Definition extractCode (OGURI : string) : outcome string :=
  match extractFragment OGURI with
  | Thrown e => Thrown e
  | Returned fragment => Returned (parseCode fragment)
  end.

(** [getAuthToken].  Inside its [try] the method returns the promise of
    [getAuthData] without awaiting it, so what [getAuthData] throws is not
    caught here: the [try] yields either the value to return or the token
    response to hand on. *)
Definition getAuthToken (this : FacebookStrategy) (OGURI : string) : M retval :=
  if includes "error" OGURI then ret (VError AuthorizationDenied)
  else
    code <- lift (extractCode OGURI) ;;
    let tokenOptions : jsobject :=
      [ ("client_id", option_prop (options this) "client_id");
        ("redirect_uri", option_prop (options this) "redirect_uri");
        ("client_secret", option_prop (options this) "client_secret");
        ("code", JStr code) ] in
    step <- try_catch
      (uri <- lift (constructURI tokenOptions None) ;;
       data <- fetch (tokenURL this ++ uri) ;;
       data <- json data ;;
       type <- lift (get_prop data "type") ;;
       if strict_eq_string type "oAuthException"
       then ret (inl (VError OAuthExceptionError))
       else ret (inr data))
      (fun err => ret (inl (VError (TokenExchangeFailure err)))) ;;
    match step with
    | inl v => ret v
    | inr data => getAuthData this data
    end.

(** [authorize]. *)
Definition authorize (this : FacebookStrategy) : M retval :=
  redirect (authURL this ++ uriFromParams this).

(** [router], on [ctx.request.url.search]. *)
Definition router (this : FacebookStrategy) (search : string) : M retval :=
  if String.eqb search "" then authorize this
  else if String.eqb (slice 1 5 search) "code" then getAuthToken this search
  else ret VUndefined.

End Strategy.

(** ** The specification's reading of the two pure components *)

(** [key=value] for one pair. *)
Definition pair_text (kv : string * string) : string :=
  fst kv ++ "=" ++ snd kv.

(** The pairs whose key is not the skipped one, in their order. *)
Definition kept (skip : option string) (params : Options) : Options :=
  filter (fun kv => negb (is_skipped (fst kv) skip)) params.

(** [build] of the specification: the kept pairs, each once as [key=value],
    joined by [&]. *)
Definition build (params : Options) (skip : option string) : string :=
  join "&" (map pair_text (kept skip params)).

(** [decode] of the specification: one pass from left to right that writes
    the literal character for every escape sequence of the table and copies
    every other character. *)
Fixpoint decode (s : string) : string :=
  match s with
  | EmptyString => EmptyString
  | String c t =>
      match t with
      | String a (String b rest) =>
          match lookup (String c (String a (String b ""))) replacements with
          | Some lit => lit ++ decode rest
          | None => String c (decode t)
          end
      | _ => String c (decode t)
      end
  end.

(** The token-exchange request of the specification:
    [<tokenURL>client_id=...&redirect_uri=...&client_secret=...&code=...]. *)
Definition tokenExchangeURL (this : FacebookStrategy) (code : string) : string :=
  tokenURL this
  ++ "client_id=" ++ field_text (options this) "client_id"
  ++ "&redirect_uri=" ++ field_text (options this) "redirect_uri"
  ++ "&client_secret=" ++ field_text (options this) "client_secret"
  ++ "&code=" ++ code.

(** The identity-lookup request of the specification:
    [<authDataURL>input_token=...&access_token=<client_id>|<client_secret>]. *)
Definition identityLookupURL (this : FacebookStrategy) (input_token : string)
  : string :=
  authDataURL this
  ++ "input_token=" ++ input_token
  ++ "&access_token=" ++ field_text (options this) "client_id"
  ++ "|" ++ field_text (options this) "client_secret".

(** The four required configuration fields. *)
Definition required : list string :=
  [ "client_id"; "client_secret"; "redirect_uri"; "state" ].

(** The provider's answers of the end-to-end property, with [expires] for
    the number 3600, and the record they must give. *)
Definition token_response {num : Type} (expires : num) : jsval num :=
  JObj [ ("access_token", JStr "T"); ("token_type", JStr "bearer");
         ("expires_in", JNum expires) ].

Definition identity_response {num : Type} : jsval num :=
  JObj [ ("data", JObj [ ("user_id", JStr "U1") ]) ].

Definition expected_auth_data {num : Type} (expires : num) : @AuthData num :=
  mkAuthData (mkTokenData (JStr "T") (JStr "bearer") (JNum expires))
             (mkUserInfo "facebook" (JStr "U1")).

(** The provider's answer on a failed exchange. *)
Definition exception_response {num : Type} : jsval num :=
  JObj [ ("type", JStr "oAuthException") ].

(** The world after one more request. *)
Definition after_fetch (w : World) (url : string) : World :=
  mkWorld (fetched w ++ [url])%list (redirected w).

(** ** Concrete instances used to exercise the theorems *)

(** Integers as numbers, printed in decimal. *)
Definition decimal (z : Z) : string := NilZero.string_of_int (Z.to_int z).

Definition example_options : Options :=
  [ ("client_id", "123"); ("client_secret", "shh");
    ("redirect_uri", "https://example.net/cb"); ("state", "xyz") ].

Definition example_strategy : FacebookStrategy :=
  mkStrategy "facebook" example_options
    "client_id=123&redirect_uri=https://example.net/cb&state=xyz"
    "https://www.facebook.com/v9.0/dialog/oauth?"
    "https://graph.facebook.com/v9.0/oauth/access_token?"
    "https://graph.facebook.com/debug_token?".

Definition empty_world : World := mkWorld [] [].

(** A provider that answers the first request with the token and every later
    one with the identity. *)
Definition granting_net (earlier : list string) (url : string) : Response Z :=
  match earlier with
  | [] => Resolved (Json (token_response 3600%Z))
  | _ => Resolved (Json identity_response)
  end.

(** A provider that refuses every exchange. *)
Definition refusing_net (earlier : list string) (url : string) : Response Z :=
  Resolved (Json exception_response).

(** ** Auxiliary definitions of the proofs *)

(** An escape sequence [%ab] and its literal character. *)
Definition escape : Type := (ascii * ascii * ascii)%type.

Definition escapes : list escape :=
  [ ("2", "4", "$"); ("2", "6", "&"); ("2", "B", "+"); ("2", "C", ",");
    ("2", "F", "/"); ("3", "A", ":"); ("3", "B", ";"); ("3", "D", "=");
    ("3", "F", "?"); ("4", "0", "@") ]%char.

Definition key_of (e : escape) : string :=
  let '(a, b, _) := e in String "%" (String a (String b "")).

Definition lit_of (e : escape) : string :=
  let '(_, _, l) := e in String l "".

Definition entry_of (e : escape) : string * string := (key_of e, lit_of e).

(** A table of escapes as a partial function of the two characters that
    follow the percent sign. *)
Definition table : Type := ascii -> ascii -> option ascii.

Definition matches (x y : ascii) (e : escape) : bool :=
  let '(a, b, _) := e in Ascii.eqb x a && Ascii.eqb y b.

Definition tbl_of (es : list escape) : table :=
  fun x y =>
    match find (matches x y) es with
    | Some (_, _, l) => Some l
    | None => None
    end.

(** The table with the one escape [%ab] for [l]. *)
Definition single (a b l : ascii) : table :=
  fun x y => if Ascii.eqb x a && Ascii.eqb y b then Some l else None.

(** [tbl] extended by [%ab] for [l], the older escapes first. *)
Definition extend (tbl : table) (a b l : ascii) : table :=
  fun x y =>
    match tbl x y with
    | Some r => Some r
    | None => single a b l x y
    end.

(** The literal that an escape sequence at the head of [s] stands for. *)
Definition hit (tbl : table) (s : string) : option ascii :=
  match s with
  | String c (String a (String b _)) =>
      if Ascii.eqb c "%" then tbl a b else None
  | _ => None
  end.

(** One pass from left to right with the escapes of [tbl]. *)
Fixpoint pass (tbl : table) (s : string) : string :=
  match s with
  | EmptyString => EmptyString
  | String c t =>
      match t with
      | String a (String b rest) =>
          match (if Ascii.eqb c "%" then tbl a b else None) with
          | Some l => String l (pass tbl rest)
          | None => String c (pass tbl t)
          end
      | _ => String c (pass tbl t)
      end
  end.

(** The characters that stand after the percent sign in some escape. *)
Definition keyc (c : ascii) : bool :=
  existsb (fun e : escape => let '(a, b, _) := e in Ascii.eqb c a || Ascii.eqb c b)
    escapes.

(** A literal that no replacement can turn into part of an escape. *)
Definition inert (l : ascii) : bool := negb (keyc l) && negb (Ascii.eqb l "%").

(** The escapes [todo] can be applied one after the other once [done] have
    been: their characters are key characters, their literals are inert, and
    none repeats an earlier sequence. *)
Fixpoint ready (done todo : list escape) : bool :=
  match todo with
  | [] => true
  | (a, b, l) :: rest =>
      keyc a && keyc b && inert l
      && match tbl_of done a b with Some _ => false | None => true end
      && ready (done ++ [(a, b, l)])%list rest
  end.

(** What the loop of [constructURI] has appended after the pairs [ps]: every
    pair followed by a separator. *)
Fixpoint trailing (ps : Options) : string :=
  match ps with
  | [] => ""
  | kv :: rest => (pair_text kv ++ "&") ++ trailing rest
  end.

(** ** Definitions for the further properties *)

(** [undefined] and [null], the values without properties. *)
Definition nullish {num : Type} (v : jsval num) : bool :=
  match v with
  | JUndefined | JNull => true
  | _ => false
  end.

(** What [v.k] reads off a value that has properties: the own property of a
    parsed object, [undefined] otherwise. *)
Definition own {num : Type} (v : jsval num) (k : string) : jsval num :=
  match v with
  | JObj props =>
      match lookup k props with
      | Some x => x
      | None => JUndefined
      end
  | _ => JUndefined
  end.

(** The code that [getAuthToken] puts into its token request. *)
Definition sent_code (OGURI : string) : string :=
  match extractCode OGURI with
  | Returned code => code
  | Thrown _ => ""
  end.

(** The escape sequence that [table] decodes to the character [c], or [c]
    itself when the table has none. *)
Fixpoint escape_of (c : ascii) (table : list (string * string)) : string :=
  match table with
  | [] => String c ""
  | (key, lit) :: rest =>
      if String.eqb lit (String c "") then key else escape_of c rest
  end.

(** [s] with every character that [replacements] decodes to written as its
    escape sequence. *)
Fixpoint encode (s : string) : string :=
  match s with
  | EmptyString => EmptyString
  | String c t => escape_of c replacements ++ encode t
  end.

(** A provider that gives the answers of a script, one per request, and
    fails once the script is used up. *)
Definition scripted (answers : list (Response Z)) (earlier : list string)
  (url : string) : Response Z :=
  nth (List.length earlier) answers (NetworkError "no answer").

(** ** The order of an object's properties, and the ends of a string *)

(** The value of a decimal digit. *)
Definition digit (c : ascii) : option N :=
  let n := N_of_ascii c in
  if (48 <=? n)%N && (n <=? 57)%N then Some (n - 48)%N else None.

Fixpoint digits_value (s : string) (acc : N) : option N :=
  match s with
  | EmptyString => Some acc
  | String c t =>
      match digit c with
      | Some d => digits_value t (10 * acc + d)%N
      | None => None
      end
  end.

(** The array index that a property key stands for: the key is the decimal
    writing, without leading zero, of an integer below 2^32 - 1. *)
Definition array_index (key : string) : option N :=
  match key with
  | EmptyString => None
  | String c t =>
      if Ascii.eqb c "0" && negb (String.eqb t "") then None
      else
        match digits_value key 0 with
        | Some n => if (n <? 4294967295)%N then Some n else None
        | None => None
        end
  end.

Fixpoint insert_index {V : Type} (n : N) (kv : string * V)
  (sorted : list (N * (string * V))) : list (N * (string * V)) :=
  match sorted with
  | [] => [(n, kv)]
  | (m, x) :: rest =>
      if (n <? m)%N then (n, kv) :: sorted
      else (m, x) :: insert_index n kv rest
  end.

(** The properties whose key is an array index, by ascending index. *)
Fixpoint index_entries {V : Type} (inserted : list (string * V))
  : list (N * (string * V)) :=
  match inserted with
  | [] => []
  | kv :: rest =>
      match array_index (fst kv) with
      | Some n => insert_index n kv (index_entries rest)
      | None => index_entries rest
      end
  end.

Definition is_plain_key {V : Type} (kv : string * V) : bool :=
  match array_index (fst kv) with
  | Some _ => false
  | None => true
  end.

(** [Object.entries] of the object whose properties were created in the
    order [inserted] (keys distinct): the array indices first, ascending,
    then the other keys in the order of their creation. *)
Definition Object_entries {V : Type} (inserted : list (string * V))
  : list (string * V) :=
  (map snd (index_entries inserted) ++ filter is_plain_key inserted)%list.

(** [s[0]]: the first unit, [undefined] ([None]) on the empty string. *)
Definition first_char (s : string) : option ascii :=
  match s with
  | EmptyString => None
  | String c _ => Some c
  end.

(** The specification's test for a pair to appear in the built string: its
    key is not the skipped key. *)
Definition appears (skip : option string) (kv : string * string) : bool :=
  match skip with
  | Some k => negb (String.eqb (fst kv) k)
  | None => true
  end.

(** ** Strings *)

Lemma append_assoc (a b c : string) : (a ++ b) ++ c = a ++ (b ++ c).
Proof.
  induction a as [|x a IH]; simpl; [reflexivity|].
  now rewrite IH.
Qed.

Lemma append_nil_r (a : string) : a ++ "" = a.
Proof.
  induction a as [|x a IH]; simpl; [reflexivity|].
  now rewrite IH.
Qed.

Lemma last_char_snoc (s : string) (c : ascii) :
  last_char (s ++ String c "") = Some c.
Proof.
  induction s as [|x s IH]; simpl; [reflexivity|].
  rewrite IH. destruct s; reflexivity.
Qed.

Lemma slice_0_m1_snoc (s : string) (c : ascii) :
  slice_0_m1 (s ++ String c "") = s.
Proof.
  induction s as [|x s IH]; simpl; [reflexivity|].
  rewrite IH. destruct s; reflexivity.
Qed.

(** ** constructURI *)

Section ConstructURI.

Context {num : Type}.
Variable num_to_string : num -> string.

(** [constructURI] on an object whose values all print: [params] holds the
    same keys with the printed values. *)
Lemma constructURI_loop_texts (obj : jsobject) (params : Options)
  (skip : option string) :
  Forall2 (fun (e : string * jsval num) (p : string * string) =>
             fst e = fst p /\ ToString num_to_string (snd e) = Returned (snd p))
    obj params ->
  forall acc,
    constructURI_loop num_to_string obj skip acc
    = Returned (acc ++ trailing (kept skip params)).
Proof.
  induction 1 as [|[k v] [k' v'] obj params [Hk Hv] _ IH]; intros acc.
  - simpl. now rewrite append_nil_r.
  - simpl in Hk, Hv. subst k'. cbn [constructURI_loop kept filter fst].
    destruct (is_skipped k skip); cbn [negb].
    + apply IH.
    + rewrite Hv, IH. f_equal. cbn [trailing]. unfold pair_text. cbn [fst snd].
      now rewrite !append_assoc.
Qed.

Lemma trailing_join (ps : Options) :
  ps <> [] -> trailing ps = join "&" (map pair_text ps) ++ "&".
Proof.
  induction ps as [|kv ps IH]; intros Hne; [congruence|].
  destruct ps as [|kv' ps].
  - simpl. now rewrite append_nil_r.
  - change (trailing (kv :: kv' :: ps))
      with ((pair_text kv ++ "&") ++ trailing (kv' :: ps)).
    rewrite IH by discriminate.
    change (join "&" (map pair_text (kv :: kv' :: ps)))
      with (pair_text kv ++ "&" ++ join "&" (map pair_text (kv' :: ps))).
    now rewrite !append_assoc.
Qed.

Lemma constructURI_texts (obj : jsobject) (params : Options)
  (skip : option string) :
  Forall2 (fun (e : string * jsval num) (p : string * string) =>
             fst e = fst p /\ ToString num_to_string (snd e) = Returned (snd p))
    obj params ->
  constructURI num_to_string obj skip = Returned (build params skip).
Proof.
  intros H. unfold constructURI, build.
  rewrite (constructURI_loop_texts obj params skip H). cbn [append].
  destruct (kept skip params) as [|kv ps] eqn:E.
  - reflexivity.
  - rewrite trailing_join by discriminate.
    rewrite last_char_snoc, slice_0_m1_snoc, Ascii.eqb_refl. reflexivity.
Qed.

Lemma constructURI_strings (params : Options) (skip : option string) :
  constructURI num_to_string (entries_of params) skip
  = Returned (build params skip).
Proof.
  apply constructURI_texts.
  induction params as [|[k v] params IH]; constructor; auto.
Qed.

Lemma ToString_option_prop (o : Options) (k : string) :
  ToString num_to_string (option_prop o k) = Returned (field_text o k).
Proof.
  unfold option_prop, field_text. now destruct (lookup k o).
Qed.

End ConstructURI.

(** ** parseCode: one pass with one escape *)

Lemma string_length_ind (P : string -> Prop) :
  (forall s, (forall t, String.length t < String.length s -> P t) -> P s) ->
  forall s, P s.
Proof.
  intros step s.
  remember (String.length s) as n eqn:E.
  revert s E.
  induction n as [n IH] using lt_wf_ind.
  intros s ->. apply step. intros t Hlt. now apply (IH (String.length t)).
Qed.

Lemma pass_unfold (tbl : table) (c : ascii) (t : string) :
  pass tbl (String c t)
  = match hit tbl (String c t) with
    | Some l => String l (pass tbl (drop 2 t))
    | None => String c (pass tbl t)
    end.
Proof.
  destruct t as [|a [|b rest]]; reflexivity.
Qed.

Lemma hit_inv (tbl : table) (s : string) (r : ascii) :
  hit tbl s = Some r ->
  exists a b rest,
    s = String "%" (String a (String b rest)) /\ tbl a b = Some r.
Proof.
  destruct s as [|c [|a [|b rest]]]; simpl; try discriminate.
  destruct (Ascii.eqb_spec c "%") as [->|]; [|discriminate].
  intros H. now exists a, b, rest.
Qed.

Lemma hit_escape (tbl : table) (a b : ascii) (rest : string) :
  hit tbl (String "%" (String a (String b rest))) = tbl a b.
Proof. reflexivity. Qed.

Lemma hit_other (tbl : table) (c : ascii) (t : string) :
  c <> "%"%char -> hit tbl (String c t) = None.
Proof.
  intros Hc. destruct t as [|a [|b rest]]; simpl; try reflexivity.
  destruct (Ascii.eqb_spec c "%"); [contradiction|reflexivity].
Qed.

Lemma pass_other (tbl : table) (c : ascii) (t : string) :
  c <> "%"%char -> pass tbl (String c t) = String c (pass tbl t).
Proof.
  intros Hc. rewrite pass_unfold, hit_other by assumption. reflexivity.
Qed.

Lemma single_inv (a b l x y r : ascii) :
  single a b l x y = Some r -> x = a /\ y = b /\ r = l.
Proof.
  unfold single.
  destruct (Ascii.eqb_spec x a), (Ascii.eqb_spec y b); simpl;
    try discriminate.
  intros [= <-]. auto.
Qed.

Lemma single_refl (a b l : ascii) : single a b l a b = Some l.
Proof. unfold single. now rewrite !Ascii.eqb_refl. Qed.

Lemma keyc_percent : keyc "%" = false.
Proof. reflexivity. Qed.

Lemma keyc_not_percent (c : ascii) : keyc c = true -> c <> "%"%char.
Proof. intros H ->. rewrite keyc_percent in H. discriminate. Qed.

Lemma inert_spec (l : ascii) :
  inert l = true -> keyc l = false /\ l <> "%"%char.
Proof.
  unfold inert. intros H. apply andb_true_iff in H as [H1 H2].
  apply negb_true_iff in H1, H2. split; [assumption|].
  now apply Ascii.eqb_neq.
Qed.

Lemma prefix_key (a b : ascii) (s : string) :
  prefix (String "%" (String a (String b ""))) s = true
  <-> exists rest, s = String "%" (String a (String b rest)).
Proof.
  split.
  - destruct s as [|c [|x [|y rest]]]; cbn [prefix]; try discriminate;
      repeat (destruct (ascii_dec _ _); try discriminate).
    subst. intros _. now exists rest.
  - intros [rest ->]. cbn [prefix].
    repeat (destruct (ascii_dec _ _); try congruence).
    destruct rest; reflexivity.
Qed.

Lemma prefix_key_false (a b : ascii) (s : string) (l : ascii) :
  prefix (String "%" (String a (String b ""))) s = false ->
  hit (single a b l) s = None.
Proof.
  intros Hp. destruct (hit (single a b l) s) as [r|] eqn:E; [|reflexivity].
  apply hit_inv in E as (x & y & rest & -> & E).
  apply single_inv in E as (-> & -> & _).
  assert (prefix (String "%" (String a (String b ""))) 
            (String "%" (String a (String b rest))) = true) as Ht
    by (apply prefix_key; now exists rest).
  congruence.
Qed.

Section OneEscape.

Variables a b l : ascii.
Hypothesis key_a : keyc a = true.
Hypothesis key_b : keyc b = true.
Hypothesis inert_l : inert l = true.

Let key : string := String "%" (String a (String b "")).
Let lit : string := String l "".

Lemma replace_escape (rest : string) :
  replace key lit (String "%" (String a (String b rest))) = String l rest.
Proof.
  unfold key, lit. cbn [replace].
  assert (prefix (String "%" (String a (String b "")))
            (String "%" (String a (String b rest))) = true) as ->
    by (apply prefix_key; now exists rest).
  reflexivity.
Qed.

Lemma replace_other (c : ascii) (t : string) :
  prefix key (String c t) = false ->
  replace key lit (String c t) = String c (replace key lit t).
Proof.
  intros Hp. unfold key, lit in *. cbn [replace]. now rewrite Hp.
Qed.

(** A key character at the head of the replaced string was at the head
    before. *)
Lemma replace_head (x : ascii) (t z : string) :
  keyc x = true ->
  replace key lit t = String x z ->
  exists t', t = String x t' /\ z = replace key lit t'.
Proof.
  intros Hx.
  destruct (prefix key t) eqn:Hp.
  - apply prefix_key in Hp as [rest ->]. rewrite replace_escape.
    intros [= -> _]. apply inert_spec in inert_l as [Hk _]. congruence.
  - destruct t as [|c t']; [discriminate|].
    rewrite replace_other by assumption.
    intros [= -> <-]. now exists t'.
Qed.

Lemma includes_false_pass (s : string) :
  includes key s = false -> pass (single a b l) s = s.
Proof.
  induction s as [|c t IH]; [reflexivity|].
  unfold key in *. cbn [includes].
  destruct (prefix _ (String c t)) eqn:Hp; [discriminate|].
  intros Hi. rewrite pass_unfold, (prefix_key_false _ _ _ l Hp).
  now rewrite IH.
Qed.

Lemma pass_replace (s : string) :
  pass (single a b l) (replace key lit s) = pass (single a b l) s.
Proof.
  induction s as [|c t IH]; [reflexivity|].
  destruct (prefix key (String c t)) eqn:Hp.
  - apply prefix_key in Hp as [rest [= -> ->]].
    rewrite replace_escape.
    rewrite pass_other by (apply inert_spec in inert_l; tauto).
    rewrite pass_unfold, hit_escape, single_refl. reflexivity.
  - rewrite replace_other by assumption.
    rewrite (pass_unfold _ c t), (prefix_key_false _ _ _ l Hp).
    rewrite pass_unfold.
    destruct (hit (single a b l) (String c (replace key lit t))) as [r|] eqn:E.
    + exfalso.
      apply hit_inv in E as (x & y & rest & [= -> E1] & E2).
      apply single_inv in E2 as (-> & -> & _).
      apply replace_head in E1 as (t' & -> & E1); [|assumption].
      symmetry in E1.
      apply replace_head in E1 as (t'' & -> & _); [|assumption].
      assert (prefix key (String "%" (String a (String b t''))) = true) as Ht
        by (apply prefix_key; now exists t'').
      congruence.
    + now rewrite IH.
Qed.

Lemma replace_shortens (s : string) :
  includes key s = true ->
  String.length (replace key lit s) + 2 = String.length s.
Proof.
  induction s as [|c t IH].
  - discriminate.
  - destruct (prefix key (String c t)) eqn:Hp.
    + intros _. apply prefix_key in Hp as [rest [= -> ->]].
      rewrite replace_escape. simpl. lia.
    + rewrite replace_other by assumption.
      unfold key in *. cbn [includes]. rewrite Hp.
      intros Hi. simpl. rewrite <- (IH Hi). reflexivity.
Qed.

Lemma while_includes_pass (fuel : nat) :
  forall s,
    String.length s < fuel ->
    while_includes fuel key lit s = Some (pass (single a b l) s).
Proof.
  induction fuel as [|fuel IH]; intros s Hlen; [lia|].
  cbn [while_includes].
  destruct (includes key s) eqn:Hi.
  - rewrite IH.
    + now rewrite pass_replace.
    + apply replace_shortens in Hi. lia.
  - now rewrite includes_false_pass.
Qed.

End OneEscape.

(** ** parseCode: the escapes one after the other *)

Lemma hit_ext (t1 t2 : table) (s : string) :
  (forall x y, t1 x y = t2 x y) -> hit t1 s = hit t2 s.
Proof.
  intros H. destruct s as [|c [|x [|y rest]]]; simpl; try reflexivity.
  now rewrite H.
Qed.

Lemma pass_ext (t1 t2 : table) :
  (forall x y, t1 x y = t2 x y) -> forall s, pass t1 s = pass t2 s.
Proof.
  intros H s. induction s as [s IH] using string_length_ind.
  destruct s as [|c t]; [reflexivity|].
  rewrite !pass_unfold, (hit_ext t1 t2) by assumption.
  destruct (hit t2 (String c t)) as [r|] eqn:E.
  - apply hit_inv in E as (x & y & rest & [= -> ->] & _).
    cbn [drop]. f_equal. apply IH. simpl. lia.
  - f_equal. apply IH. simpl. lia.
Qed.

Lemma pass_length (tbl : table) (s : string) :
  String.length (pass tbl s) <= String.length s.
Proof.
  induction s as [s IH] using string_length_ind.
  destruct s as [|c t]; [reflexivity|].
  rewrite pass_unfold.
  destruct (hit tbl (String c t)) as [r|] eqn:E.
  - apply hit_inv in E as (x & y & rest & [= -> ->] & _).
    cbn [drop]. simpl.
    assert (String.length (pass tbl rest) <= String.length rest)
      by (apply IH; simpl; lia).
    lia.
  - simpl. assert (String.length (pass tbl t) <= String.length t)
      by (apply IH; simpl; lia).
    lia.
Qed.

Lemma pass_no_escape (s : string) : pass (tbl_of []) s = s.
Proof.
  induction s as [|c t IH]; [reflexivity|].
  rewrite pass_unfold.
  destruct (hit (tbl_of []) (String c t)) as [r|] eqn:E.
  - apply hit_inv in E as (x & y & rest & _ & E). discriminate.
  - now rewrite IH.
Qed.

Section Compose.

Variable T : table.
Variables a b l : ascii.
Hypothesis key_a : keyc a = true.
Hypothesis key_b : keyc b = true.
Hypothesis inert_l : inert l = true.
Hypothesis inert_T : forall x y r, T x y = Some r -> inert r = true.
Hypothesis fresh : T a b = None.

(** A key character at the head of a decoded string was at the head
    before. *)
Lemma pass_head (x : ascii) (t z : string) :
  keyc x = true ->
  pass T t = String x z ->
  exists t', t = String x t' /\ z = pass T t'.
Proof.
  intros Hx. destruct t as [|c t']; [discriminate|].
  rewrite pass_unfold.
  destruct (hit T (String c t')) as [r|] eqn:E.
  - apply hit_inv in E as (x' & y' & rest & _ & E).
    apply inert_T, inert_spec in E as [E _].
    intros [= -> _]. congruence.
  - intros [= -> <-]. now exists t'.
Qed.

Lemma pass_compose (s : string) :
  pass (single a b l) (pass T s) = pass (extend T a b l) s.
Proof.
  induction s as [s IH] using string_length_ind.
  destruct s as [|c t]; [reflexivity|].
  rewrite (pass_unfold T).
  destruct (hit T (String c t)) as [r|] eqn:E.
  - apply hit_inv in E as (x & y & rest & [= -> ->] & E).
    cbn [drop].
    rewrite pass_other by (apply inert_T, inert_spec in E; tauto).
    rewrite (pass_unfold (extend T a b l)), hit_escape.
    unfold extend at 1. rewrite E. cbn [drop].
    f_equal. apply IH. simpl. lia.
  - rewrite (pass_unfold (extend T a b l)).
    destruct (hit (extend T a b l) (String c t)) as [r|] eqn:E'.
    + apply hit_inv in E' as (x & y & rest & [= -> ->] & E').
      rewrite hit_escape in E. unfold extend in E'. rewrite E in E'.
      apply single_inv in E' as (-> & -> & ->).
      rewrite (pass_other T a) by now apply keyc_not_percent.
      rewrite (pass_other T b) by now apply keyc_not_percent.
      rewrite pass_unfold, hit_escape, single_refl. cbn [drop].
      f_equal. apply IH. simpl. lia.
    + rewrite pass_unfold.
      destruct (hit (single a b l) (String c (pass T t))) as [r|] eqn:E''.
      * exfalso.
        apply hit_inv in E'' as (x & y & z & [= -> Ez] & E'').
        apply single_inv in E'' as (-> & -> & _).
        apply pass_head in Ez as (t' & -> & Ez); [|assumption].
        symmetry in Ez.
        apply pass_head in Ez as (t'' & -> & _); [|assumption].
        rewrite hit_escape in E'. unfold extend in E'.
        rewrite fresh, single_refl in E'. discriminate.
      * f_equal. apply IH. simpl. lia.
Qed.

End Compose.

Lemma tbl_of_snoc (done : list escape) (a b l x y : ascii) :
  tbl_of (done ++ [(a, b, l)])%list x y = extend (tbl_of done) a b l x y.
Proof.
  unfold tbl_of, extend, single.
  induction done as [|[[a' b'] l'] done IH]; simpl.
  - destruct (Ascii.eqb x a && Ascii.eqb y b); reflexivity.
  - destruct (Ascii.eqb x a' && Ascii.eqb y b'); [reflexivity|apply IH].
Qed.

Lemma tbl_of_inert (done : list escape) :
  Forall (fun e : escape => inert (snd e) = true) done ->
  forall x y r, tbl_of done x y = Some r -> inert r = true.
Proof.
  intros Hall x y r. unfold tbl_of.
  destruct (find (matches x y) done) as [[[a b] l]|] eqn:F; [|discriminate].
  intros [= <-]. apply find_some in F as [Hin _].
  rewrite Forall_forall in Hall. apply (Hall _ Hin).
Qed.

Lemma for_keys_pass (todo : list escape) :
  forall (done : list escape) (s : string) (fuel : nat),
    Forall (fun e : escape => inert (snd e) = true) done ->
    ready done todo = true ->
    (forall e, In e todo -> replacement_of (key_of e) = lit_of e) ->
    String.length s < fuel ->
    for_keys fuel (map key_of todo) (pass (tbl_of done) s)
    = Some (pass (tbl_of (done ++ todo)%list) s).
Proof.
  induction todo as [|[[a b] l] todo IH]; intros done s fuel Hdone Hready Hlit Hlen.
  - simpl. now rewrite app_nil_r.
  - cbn [ready] in Hready.
    repeat (apply andb_true_iff in Hready as [Hready ?]).
    destruct (tbl_of done a b) eqn:Hfresh; [discriminate|].
    cbn [map for_keys].
    rewrite (Hlit (a, b, l)) by now left.
    cbn [key_of lit_of].
    rewrite while_includes_pass; try assumption.
    2:{ pose proof (pass_length (tbl_of done) s). lia. }
    rewrite pass_compose; try assumption.
    2:{ now apply tbl_of_inert. }
    rewrite (pass_ext (extend (tbl_of done) a b l)
                      (tbl_of (done ++ [(a, b, l)])%list))
      by (intros x y; symmetry; apply tbl_of_snoc).
    rewrite IH; try assumption.
    + now rewrite <- app_assoc.
    + apply Forall_app. split; [assumption|]. now constructor.
    + intros e He. apply Hlit. now right.
Qed.

Lemma replacements_escapes : replacements = map entry_of escapes.
Proof. reflexivity. Qed.

Lemma replacement_of_escapes (e : escape) :
  In e escapes -> replacement_of (key_of e) = lit_of e.
Proof.
  intros Hin. simpl in Hin.
  repeat (destruct Hin as [<-|Hin]; [reflexivity|]).
  contradiction.
Qed.

Lemma parseCode_fuel_pass (fuel : nat) (s : string) :
  String.length s < fuel ->
  parseCode_fuel fuel s = Some (pass (tbl_of escapes) s).
Proof.
  intros Hlen. unfold parseCode_fuel.
  rewrite replacements_escapes, map_map.
  change (map (fun x => fst (entry_of x)) escapes) with (map key_of escapes).
  rewrite <- (pass_no_escape s) at 1.
  apply (for_keys_pass escapes []); auto using replacement_of_escapes.
Qed.

Lemma parseCode_pass (s : string) : parseCode s = pass (tbl_of escapes) s.
Proof.
  unfold parseCode. rewrite parseCode_fuel_pass by lia. reflexivity.
Qed.

(** ** parseCode against the specification's decoding *)

Lemma lookup_escape (es : list escape) (c a b : ascii) :
  lookup (String c (String a (String b ""))) (map entry_of es)
  = match (if Ascii.eqb c "%" then tbl_of es a b else None) with
    | Some l => Some (String l "")
    | None => None
    end.
Proof.
  unfold tbl_of.
  induction es as [|[[x y] l] es IH].
  - simpl. now destruct (Ascii.eqb c "%").
  - cbn [map entry_of key_of lit_of lookup find matches String.eqb].
    rewrite IH.
    destruct (Ascii.eqb c "%"); [|reflexivity].
    destruct (Ascii.eqb a x); [|reflexivity].
    destruct (Ascii.eqb b y); reflexivity.
Qed.

Lemma decode_unfold (c : ascii) (t : string) :
  decode (String c t)
  = match hit (tbl_of escapes) (String c t) with
    | Some l => String l (decode (drop 2 t))
    | None => String c (decode t)
    end.
Proof.
  destruct t as [|a [|b rest]]; try reflexivity.
  change (decode (String c (String a (String b rest))))
    with (match lookup (String c (String a (String b ""))) replacements with
          | Some lit => lit ++ decode rest
          | None => String c (decode (String a (String b rest)))
          end).
  rewrite replacements_escapes, lookup_escape. cbn [hit drop].
  destruct (if Ascii.eqb c "%" then tbl_of escapes a b else None);
    reflexivity.
Qed.

Lemma decode_pass (s : string) : decode s = pass (tbl_of escapes) s.
Proof.
  induction s as [s IH] using string_length_ind.
  destruct s as [|c t]; [reflexivity|].
  rewrite decode_unfold, pass_unfold.
  destruct (hit (tbl_of escapes) (String c t)) as [r|] eqn:E.
  - apply hit_inv in E as (x & y & rest & [= -> ->] & _).
    cbn [drop]. f_equal. apply IH. simpl. lia.
  - f_equal. apply IH. simpl. lia.
Qed.

(** ** Code extraction *)

Lemma prefix_one (sep c : ascii) (s : string) :
  prefix (String sep "") (String c s) = Ascii.eqb c sep.
Proof.
  cbn [prefix]. destruct (ascii_dec sep c) as [->|Hne].
  - rewrite Ascii.eqb_refl. destruct s; reflexivity.
  - symmetry. apply Ascii.eqb_neq. congruence.
Qed.

Lemma split_from_first (sep : ascii) (s : string) :
  forall piece, exists p, nth_error (split_from sep piece s) 0 = Some p.
Proof.
  induction s as [|c s IH]; intros piece; cbn [split_from].
  - now exists piece.
  - destruct (Ascii.eqb c sep); [now exists piece|apply IH].
Qed.

Lemma split_from_second (sep : ascii) (s : string) :
  forall piece,
    nth_error (split_from sep piece s) 1
    = (if includes (String sep "") s then nth_error (split_from sep piece s) 1
       else None).
Proof.
  induction s as [|c s IH]; intros piece.
  - reflexivity.
  - cbn [includes]. rewrite prefix_one. cbn [split_from].
    destruct (Ascii.eqb c sep); [reflexivity|apply IH].
Qed.

Lemma split_from_second_some (sep : ascii) (s : string) :
  forall piece,
    includes (String sep "") s = true ->
    exists p, nth_error (split_from sep piece s) 1 = Some p.
Proof.
  induction s as [|c s IH]; intros piece.
  - discriminate.
  - cbn [includes]. rewrite prefix_one. cbn [split_from].
    destruct (Ascii.eqb c sep).
    + intros _. cbn [nth_error]. apply split_from_first.
    + apply IH.
Qed.

Lemma extractFragment_without_eq (OGURI : string) :
  includes "=" OGURI = false -> extractFragment OGURI = Thrown TypeError.
Proof.
  intros H. unfold extractFragment, split.
  rewrite split_from_second, H. reflexivity.
Qed.

Lemma extractFragment_with_eq (OGURI : string) :
  includes "=" OGURI = true ->
  exists fragment, extractFragment OGURI = Returned fragment.
Proof.
  intros H. unfold extractFragment, split.
  destruct (split_from_second_some "=" OGURI "" H) as [rest ->].
  destruct (split_from_first "&" rest "") as [fragment ->].
  now exists fragment.
Qed.

Lemma extractCode_without_eq (OGURI : string) :
  includes "=" OGURI = false -> extractCode OGURI = Thrown TypeError.
Proof.
  intros H. unfold extractCode. now rewrite extractFragment_without_eq.
Qed.

Lemma extractCode_with_eq (OGURI : string) :
  includes "=" OGURI = true ->
  exists code, extractCode OGURI = Returned code.
Proof.
  intros H. unfold extractCode.
  destruct (extractFragment_with_eq OGURI H) as [fragment ->].
  now exists (parseCode fragment).
Qed.

(** ** The exchange sequence *)

Section Flow.

Context {num : Type}.
Variable num_to_string : num -> string.
Variable net : list string -> string -> Response num.

Lemma token_uri (this : FacebookStrategy) (code : string) :
  constructURI num_to_string
    [ ("client_id", option_prop (options this) "client_id");
      ("redirect_uri", option_prop (options this) "redirect_uri");
      ("client_secret", option_prop (options this) "client_secret");
      ("code", JStr code) ] None
  = Returned
      ("client_id=" ++ field_text (options this) "client_id"
       ++ "&redirect_uri=" ++ field_text (options this) "redirect_uri"
       ++ "&client_secret=" ++ field_text (options this) "client_secret"
       ++ "&code=" ++ code).
Proof.
  rewrite (constructURI_texts num_to_string _
             [ ("client_id", field_text (options this) "client_id");
               ("redirect_uri", field_text (options this) "redirect_uri");
               ("client_secret", field_text (options this) "client_secret");
               ("code", code) ]).
  - unfold build, kept, pair_text. cbn [filter is_skipped negb map join fst snd].
    rewrite !append_assoc. reflexivity.
  - repeat constructor; cbn [fst snd]; apply ToString_option_prop.
Qed.

Lemma identity_uri (this : FacebookStrategy) (input_token : jsval num)
  (text : string) :
  ToString num_to_string input_token = Returned text ->
  constructURI num_to_string
    [ ("input_token", input_token);
      ("access_token",
       JStr (field_text (options this) "client_id" ++ "|"
             ++ field_text (options this) "client_secret")) ] None
  = Returned
      ("input_token=" ++ text
       ++ "&access_token=" ++ field_text (options this) "client_id"
       ++ "|" ++ field_text (options this) "client_secret").
Proof.
  intros Htext.
  rewrite (constructURI_texts num_to_string _
             [ ("input_token", text);
               ("access_token",
                field_text (options this) "client_id" ++ "|"
                ++ field_text (options this) "client_secret") ]).
  - unfold build, kept, pair_text. cbn [filter is_skipped negb map join fst snd].
    rewrite !append_assoc. reflexivity.
  - repeat constructor; cbn [fst snd]; assumption.
Qed.

(** [getAuthToken] once the code is extracted: one request, and what follows
    from its answer. *)
Lemma getAuthToken_exchange (this : FacebookStrategy) (OGURI code : string)
  (w : World) :
  includes "error" OGURI = false ->
  extractCode OGURI = Returned code ->
  getAuthToken num_to_string net this OGURI w
  = let url := tokenExchangeURL this code in
    match net (fetched w) url with
    | NetworkError reason =>
        (Returned (VError (TokenExchangeFailure (Rejected reason))),
         after_fetch w url)
    | Resolved (NotJson reason) =>
        (Returned (VError (TokenExchangeFailure (Rejected reason))),
         after_fetch w url)
    | Resolved (Json data) =>
        match get_prop data "type" with
        | Thrown err =>
            (Returned (VError (TokenExchangeFailure err)), after_fetch w url)
        | Returned type =>
            if strict_eq_string type "oAuthException"
            then (Returned (VError OAuthExceptionError), after_fetch w url)
            else getAuthData num_to_string net this data (after_fetch w url)
        end
    end.
Proof.
  intros Herr Hcode. unfold getAuthToken. rewrite Herr.
  unfold bind at 1. unfold lift at 1. rewrite Hcode.
  unfold bind at 1. unfold try_catch.
  unfold bind at 1. unfold lift at 1. rewrite token_uri.
  unfold bind at 1. unfold fetch.
  fold (tokenExchangeURL this code). cbn zeta.
  fold (after_fetch w (tokenExchangeURL this code)).
  destruct (net (fetched w) (tokenExchangeURL this code)) as [reason|[reason|data]];
    try reflexivity.
  unfold bind at 1. unfold json, ret at 1.
  unfold bind at 1. unfold lift at 1.
  destruct (get_prop data "type") as [type|err]; [|reflexivity].
  destruct (strict_eq_string type "oAuthException"); reflexivity.
Qed.

(** [getAuthData] on a token response that is an object whose token
    prints. *)
Lemma getAuthData_lookup (this : FacebookStrategy) (props : list (string * jsval num))
  (text : string) (w : World) :
  let parsed := JObj props in
  let field (k : string) : jsval num :=
    match lookup k props with Some v => v | None => JUndefined end in
  ToString num_to_string (field "access_token") = Returned text ->
  getAuthData num_to_string net this parsed w
  = let url := identityLookupURL this text in
    let tokens :=
      mkTokenData (field "access_token") (field "token_type") (field "expires_in") in
    match net (fetched w) url with
    | NetworkError reason =>
        (Returned (VError (IdentityLookupFailure (Rejected reason))),
         after_fetch w url)
    | Resolved (NotJson reason) =>
        (Returned (VError (IdentityLookupFailure (Rejected reason))),
         after_fetch w url)
    | Resolved (Json data) =>
        match get_prop data "data" with
        | Thrown err =>
            (Returned (VError (IdentityLookupFailure err)), after_fetch w url)
        | Returned inner =>
            match get_prop inner "user_id" with
            | Thrown err =>
                (Returned (VError (IdentityLookupFailure err)), after_fetch w url)
            | Returned user_id =>
                (Returned (VAuthData (mkAuthData tokens (mkUserInfo (name this) user_id))),
                 after_fetch w url)
            end
        end
    end.
Proof.
  intros parsed field Htext. unfold getAuthData, parsed.
  assert (forall k, get_prop (JObj props) k = Returned (field k)) as Hget
    by (intros k; unfold get_prop, field; now destruct (lookup k props)).
  unfold bind at 1. unfold lift at 1. rewrite Hget.
  unfold bind at 1. unfold lift at 1. rewrite Hget.
  unfold bind at 1. unfold lift at 1. rewrite Hget.
  cbn zeta. unfold try_catch. cbn [tokenData access_token].
  unfold bind at 1. unfold lift at 1. rewrite (identity_uri this _ text Htext).
  unfold bind at 1. unfold fetch.
  fold (identityLookupURL this text). cbn zeta.
  fold (after_fetch w (identityLookupURL this text)).
  destruct (net (fetched w) (identityLookupURL this text)) as [reason|[reason|data]];
    try reflexivity.
  unfold bind at 1. unfold json, ret at 1.
  unfold bind at 1. unfold lift at 1.
  destruct (get_prop data "data") as [inner|err]; [|reflexivity].
  unfold bind at 1. unfold lift at 1.
  destruct (get_prop inner "user_id") as [user_id|err]; reflexivity.
Qed.

End Flow.

(** ** The constructor *)

Lemma missing_spec (opts : Options) (k : string) :
  missing opts k = true <-> lookup k opts = None \/ lookup k opts = Some "".
Proof.
  unfold missing. destruct (lookup k opts) as [v|].
  - rewrite String.eqb_eq. split.
    + intros ->. now right.
    + intros [H|[= ->]]; [discriminate|reflexivity].
  - split; auto.
Qed.

Lemma missing_false (opts : Options) (k : string) :
  missing opts k = false <-> exists v, lookup k opts = Some v /\ v <> "".
Proof.
  unfold missing. destruct (lookup k opts) as [v|].
  - rewrite String.eqb_neq. split.
    + intros H. now exists v.
    + intros (v' & [= <-] & H). exact H.
  - split; [discriminate|]. intros (v & H & _). discriminate.
Qed.

Lemma constructor_cases {num : Type} (num_to_string : num -> string)
  (opts : Options) :
  constructor num_to_string opts
  = if missing opts "client_id" || missing opts "redirect_uri"
       || missing opts "state" || missing opts "client_secret"
    then Thrown ConfigurationError
    else Returned
           (mkStrategy "facebook" opts (build opts (Some "client_secret"))
              "https://www.facebook.com/v9.0/dialog/oauth?"
              "https://graph.facebook.com/v9.0/oauth/access_token?"
              "https://graph.facebook.com/debug_token?").
Proof.
  unfold constructor. now rewrite constructURI_strings.
Qed.

Lemma some_missing (opts : Options) :
  missing opts "client_id" || missing opts "redirect_uri"
  || missing opts "state" || missing opts "client_secret" = true
  <-> exists k, In k required /\ missing opts k = true.
Proof.
  rewrite !orb_true_iff. split.
  - intros [[[H|H]|H]|H]; eexists; (split; [|exact H]); simpl; tauto.
  - intros (k & Hin & Hk). simpl in Hin.
    destruct Hin as [<-|[<-|[<-|[<-|[]]]]]; tauto.
Qed.

(** C8. The constructor throws its configuration error exactly when one of
    [client_id], [client_secret], [redirect_uri], [state] is absent or the
    empty string, and yields an instance exactly when all four are present
    and not empty.  The constructor is a pure function: it makes no
    request. *)
Theorem constructor_requires_fields
  (num : Type) (num_to_string : num -> string) (opts : Options) :
  (constructor num_to_string opts = Thrown ConfigurationError
   <-> exists k, In k required
                 /\ (lookup k opts = None \/ lookup k opts = Some ""))
  /\ ((forall k, In k required -> exists v, lookup k opts = Some v /\ v <> "")
      <-> exists this, constructor num_to_string opts = Returned this).
Proof.
  rewrite constructor_cases.
  pose proof (some_missing opts) as Hsome.
  destruct (missing opts "client_id" || missing opts "redirect_uri"
            || missing opts "state" || missing opts "client_secret").
  - destruct (proj1 Hsome eq_refl) as (k & Hin & Hk).
    split; split.
    + intros _. exists k. split; [assumption|now apply missing_spec].
    + reflexivity.
    + intros Hall. apply Hall, missing_false in Hin. congruence.
    + intros [this [=]].
  - split; split.
    + discriminate.
    + intros (k & Hin & Hk). apply missing_spec in Hk.
      enough (false = true) by discriminate. apply Hsome. now exists k.
    + intros _. eauto.
    + intros _ k Hin. apply missing_false.
      destruct (missing opts k) eqn:Hk; [|reflexivity].
      enough (false = true) by discriminate. apply Hsome. now exists k.
Qed.

Lemma constructor_requires_fields_witness :
  (forall k, In k required ->
             exists v, lookup k example_options = Some v /\ v <> "")
  /\ exists this, constructor decimal example_options = Returned this.
Proof.
  assert (forall k, In k required ->
                    exists v, lookup k example_options = Some v /\ v <> "")
    as Hall.
  { intros k Hin. simpl in Hin.
    destruct Hin as [<-|[<-|[<-|[<-|[]]]]];
      (eexists; split; [reflexivity|discriminate]). }
  split; [exact Hall|].
  exact (proj1 (proj2 (constructor_requires_fields Z decimal example_options)) Hall).
Defined.

Lemma constructor_fields {num : Type} (num_to_string : num -> string)
  (opts : Options) (this : FacebookStrategy) :
  constructor num_to_string opts = Returned this ->
  name this = "facebook" /\ options this = opts
  /\ authURL this = "https://www.facebook.com/v9.0/dialog/oauth?"
  /\ tokenURL this = "https://graph.facebook.com/v9.0/oauth/access_token?"
  /\ authDataURL this = "https://graph.facebook.com/debug_token?"
  /\ uriFromParams this = build opts (Some "client_secret").
Proof.
  rewrite constructor_cases.
  destruct (_ || _); [discriminate|].
  intros [= <-]. repeat split.
Qed.

Lemma includes_eq_code (rest : string) : includes "=" ("?code=" ++ rest) = true.
Proof.
  cbn [append].
  repeat (cbn [includes]; rewrite prefix_one; cbn [Ascii.eqb Bool.eqb]).
  reflexivity.
Qed.

(** ** The claims about the flow *)

(** C1. End to end: for an instance built by the constructor and a query
    string [?code=...] without [error], when the token exchange answers
    [{access_token:"T", token_type:"bearer", expires_in:3600}] and the
    identity lookup answers [{data:{user_id:"U1"}}], [getAuthToken] resolves
    to the record with these three token fields, provider [facebook] and
    user id [U1], after exactly these two requests. *)
Theorem exchange_end_to_end
  (num : Type) (num_to_string : num -> string) (expires : num)
  (opts : Options) (this : FacebookStrategy) (rest : string) (w : World) :
  constructor num_to_string opts = Returned this ->
  includes "error" ("?code=" ++ rest) = false ->
  exists code,
    extractCode ("?code=" ++ rest) = Returned code
    /\ forall net : list string -> string -> Response num,
        net (fetched w) (tokenExchangeURL this code)
        = Resolved (Json (token_response expires)) ->
        net (fetched w ++ [tokenExchangeURL this code])%list
            (identityLookupURL this "T")
        = Resolved (Json identity_response) ->
        getAuthToken num_to_string net this ("?code=" ++ rest) w
        = (Returned (VAuthData (expected_auth_data expires)),
           mkWorld (fetched w ++ [tokenExchangeURL this code;
                                  identityLookupURL this "T"])%list
                   (redirected w)).
Proof.
  intros Hthis Herr.
  destruct (extractCode_with_eq _ (includes_eq_code rest)) as [code Hcode].
  exists code. split; [assumption|].
  intros net Htoken Hidentity.
  apply constructor_fields in Hthis as (Hname & _).
  rewrite (getAuthToken_exchange num_to_string net this _ code w Herr Hcode).
  cbn zeta. rewrite Htoken.
  unfold token_response. cbn [get_prop lookup String.eqb Ascii.eqb Bool.eqb].
  cbn [strict_eq_string].
  rewrite (getAuthData_lookup num_to_string net this _ "T") by reflexivity.
  cbn zeta. cbn [after_fetch fetched] in *. rewrite Hidentity.
  unfold identity_response, expected_auth_data, after_fetch.
  cbn [get_prop lookup String.eqb Ascii.eqb Bool.eqb fetched redirected].
  rewrite Hname, <- app_assoc. reflexivity.
Qed.

Lemma exchange_end_to_end_witness :
  getAuthToken decimal granting_net example_strategy
    "?code=abc%3D123&state=xyz" empty_world
  = (Returned (VAuthData (expected_auth_data 3600%Z)),
     mkWorld [ tokenExchangeURL example_strategy "abc=123";
               identityLookupURL example_strategy "T" ] []).
Proof.
  destruct (exchange_end_to_end Z decimal 3600%Z example_options
              example_strategy "abc%3D123&state=xyz" empty_world
              eq_refl eq_refl) as (code & Hcode & Hrun).
  assert (code = "abc=123") as -> by (vm_compute in Hcode; congruence).
  exact (Hrun granting_net eq_refl eq_refl).
Defined.

(** C5. A query string that contains [error] makes [getAuthToken] return the
    authorization-denied error at once: the world is unchanged, so no
    request was made. *)
Theorem error_callback_denied
  (num : Type) (num_to_string : num -> string)
  (net : list string -> string -> Response num)
  (this : FacebookStrategy) (OGURI : string) (w : World) :
  includes "error" OGURI = true ->
  getAuthToken num_to_string net this OGURI w
  = (Returned (VError AuthorizationDenied), w).
Proof.
  intros H. unfold getAuthToken. rewrite H. reflexivity.
Qed.

Lemma error_callback_denied_witness :
  getAuthToken decimal granting_net example_strategy
    "?code=abc&error=access_denied" empty_world
  = (Returned (VError AuthorizationDenied), empty_world).
Proof.
  exact (error_callback_denied Z decimal granting_net example_strategy
           "?code=abc&error=access_denied" empty_world eq_refl).
Defined.

(** C6. When the token exchange answers with [type] equal to
    [oAuthException], [getAuthToken] returns the token-exchange error and the
    token exchange is the only request made: [getAuthData] is not called and
    no identity lookup is issued. *)
Theorem oauth_exception_stops_exchange
  (num : Type) (num_to_string : num -> string)
  (this : FacebookStrategy) (OGURI : string) (w : World) :
  includes "error" OGURI = false ->
  includes "=" OGURI = true ->
  exists code,
    extractCode OGURI = Returned code
    /\ forall (net : list string -> string -> Response num) (data : jsval num),
        net (fetched w) (tokenExchangeURL this code) = Resolved (Json data) ->
        get_prop data "type" = Returned (JStr "oAuthException") ->
        getAuthToken num_to_string net this OGURI w
        = (Returned (VError OAuthExceptionError),
           mkWorld (fetched w ++ [tokenExchangeURL this code])%list (redirected w)).
Proof.
  intros Herr Heq.
  destruct (extractCode_with_eq _ Heq) as [code Hcode].
  exists code. split; [assumption|].
  intros net data Hnet Htype.
  rewrite (getAuthToken_exchange num_to_string net this _ code w Herr Hcode).
  cbn zeta. rewrite Hnet, Htype. reflexivity.
Qed.

Lemma oauth_exception_stops_exchange_witness :
  getAuthToken decimal refusing_net example_strategy "?code=abc" empty_world
  = (Returned (VError OAuthExceptionError),
     mkWorld [ tokenExchangeURL example_strategy "abc" ] []).
Proof.
  destruct (oauth_exception_stops_exchange Z decimal example_strategy
              "?code=abc" empty_world eq_refl eq_refl)
    as (code & Hcode & Hrun).
  assert (code = "abc") as -> by (vm_compute in Hcode; congruence).
  exact (Hrun refusing_net exception_response eq_refl eq_refl).
Defined.

(** C7 (the code departs from the claim). On the denial callback
    [?error=access_denied] the router takes neither branch: it resolves to
    [undefined] and leaves the world as it was, although [getAuthToken] on
    the same query string returns the authorization-denied error. *)
Theorem router_drops_denial_callback
  (num : Type) (num_to_string : num -> string)
  (net : list string -> string -> Response num)
  (this : FacebookStrategy) (w : World) :
  router num_to_string net this "?error=access_denied" w
  = (Returned VUndefined, w)
  /\ getAuthToken num_to_string net this "?error=access_denied" w
     = (Returned (VError AuthorizationDenied), w).
Proof.
  split; reflexivity.
Qed.

(** C10. A query string without [error] and without [=] makes [getAuthToken]
    throw a [TypeError] before any request ([URI1[1]] is [undefined]); with
    an [=] the extraction step returns a code; and the router does dispatch
    [?code] to [getAuthToken], where it throws. *)
Theorem missing_equals_throws
  (num : Type) (num_to_string : num -> string)
  (net : list string -> string -> Response num)
  (this : FacebookStrategy) (w : World) :
  (forall OGURI,
      includes "error" OGURI = false ->
      includes "=" OGURI = false ->
      getAuthToken num_to_string net this OGURI w = (Thrown TypeError, w))
  /\ (forall OGURI,
         includes "=" OGURI = true ->
         exists code, extractCode OGURI = Returned code)
  /\ router num_to_string net this "?code" w = (Thrown TypeError, w).
Proof.
  split; [|split].
  - intros OGURI Herr Heq. unfold getAuthToken. rewrite Herr.
    unfold bind, lift. now rewrite extractCode_without_eq.
  - apply extractCode_with_eq.
  - reflexivity.
Qed.

Lemma missing_equals_throws_witness :
  getAuthToken decimal granting_net example_strategy "?code" empty_world
  = (Thrown TypeError, empty_world)
  /\ exists code, extractCode "?code=abc" = Returned code.
Proof.
  split.
  - exact (proj1 (missing_equals_throws Z decimal granting_net example_strategy
                    empty_world) "?code" eq_refl eq_refl).
  - exact (proj1 (proj2 (missing_equals_throws Z decimal granting_net
                           example_strategy empty_world)) "?code=abc" eq_refl).
Defined.

(** C4. On the callback query string [?code=abc%3D123&state=xyz] the
    extraction step of [getAuthToken] isolates the fragment [abc%3D123], and
    [parseCode] decodes it to [abc=123]. *)
Theorem code_extraction_example :
  extractFragment "?code=abc%3D123&state=xyz" = Returned "abc%3D123"
  /\ parseCode "abc%3D123" = "abc=123"
  /\ extractCode "?code=abc%3D123&state=xyz" = Returned "abc=123".
Proof.
  repeat split.
Qed.

(** ** The claims about parseCode *)

Lemma for_keys_unchanged (fuel : nat) (keys : list string) (s : string) :
  (forall key, In key keys -> includes key s = false) ->
  for_keys (S fuel) keys s = Some s.
Proof.
  induction keys as [|key keys IH]; intros H; [reflexivity|].
  cbn [for_keys while_includes].
  rewrite (H key) by now left.
  apply IH. intros k Hk. apply H. now right.
Qed.

Section NoEscapeLeft.

Variable T : table.
Variables a b r : ascii.
Hypothesis key_a : keyc a = true.
Hypothesis key_b : keyc b = true.
Hypothesis inert_T : forall x y l, T x y = Some l -> inert l = true.
Hypothesis known : T a b = Some r.

Lemma pass_has_no_escape (s : string) :
  includes (String "%" (String a (String b ""))) (pass T s) = false.
Proof.
  induction s as [s IH] using string_length_ind.
  destruct s as [|c t]; [reflexivity|].
  rewrite pass_unfold.
  destruct (hit T (String c t)) as [l|] eqn:E.
  - apply hit_inv in E as (x & y & rest & [= -> ->] & E).
    cbn [drop includes].
    destruct (prefix _ (String l (pass T rest))) eqn:P.
    + apply prefix_key in P as [z [= -> _]].
      apply inert_T, inert_spec in E as [_ E]. congruence.
    + apply IH. simpl. lia.
  - cbn [includes].
    destruct (prefix _ (String c (pass T t))) eqn:P.
    + apply prefix_key in P as [z [= -> Ez]].
      apply (pass_head T inert_T) in Ez as (t' & -> & Ez); [|assumption].
      symmetry in Ez.
      apply (pass_head T inert_T) in Ez as (t'' & -> & _); [|assumption].
      rewrite hit_escape in E. congruence.
    + apply IH. simpl. lia.
Qed.

End NoEscapeLeft.

Lemma escapes_inert : Forall (fun e : escape => inert (snd e) = true) escapes.
Proof. repeat constructor. Qed.

Lemma parseCode_leaves_no_escape (s key : string) :
  In key (map fst replacements) -> includes key (parseCode s) = false.
Proof.
  intros Hin. rewrite parseCode_pass.
  pose proof (tbl_of_inert escapes escapes_inert) as Hinert.
  simpl in Hin.
  repeat (destruct Hin as [<-|Hin];
          [eapply pass_has_no_escape; (reflexivity || exact Hinert)|]).
  contradiction.
Qed.

(** C3. [parseCode] is the table-driven decoding: its result is that of the
    one pass that writes the literal for every occurrence of the ten escape
    sequences and copies everything else; no escape sequence of the table is
    left in the result; a string with none of them comes back unchanged; and
    [%3D%26] gives [=&], [%2C%2C] gives [,,]. *)
Theorem parseCode_decodes :
  (forall s, parseCode s = decode s)
  /\ (forall s key,
         In key (map fst replacements) -> includes key (parseCode s) = false)
  /\ (forall s,
         (forall key, In key (map fst replacements) -> includes key s = false) ->
         parseCode s = s)
  /\ parseCode "%3D%26" = "=&"
  /\ parseCode "%2C%2C" = ",,".
Proof.
  split; [|split; [|split; [|split]]].
  - intros s. now rewrite parseCode_pass, decode_pass.
  - apply parseCode_leaves_no_escape.
  - intros s H. unfold parseCode, parseCode_fuel.
    now rewrite for_keys_unchanged.
  - reflexivity.
  - reflexivity.
Qed.

Lemma parseCode_decodes_witness :
  (forall key, In key (map fst replacements) -> includes key "abc%41" = false)
  /\ parseCode "abc%41" = "abc%41"
  /\ includes "%3D" (parseCode "a%3Db%3D") = false.
Proof.
  assert (forall key, In key (map fst replacements) ->
                      includes key "abc%41" = false) as Hnone.
  { intros key Hin. simpl in Hin.
    repeat (destruct Hin as [<-|Hin]; [reflexivity|]). contradiction. }
  split; [exact Hnone|split].
  - exact (proj1 (proj2 (proj2 parseCode_decodes)) "abc%41" Hnone).
  - apply (proj1 (proj2 parseCode_decodes)). simpl. tauto.
Defined.

(** C9. [parseCode] terminates and returns a string on every input: each
    pass through a [while] body replaces three characters by one, so the
    string gets two shorter, and as soon as each loop may test its condition
    more often than the input is long the run ends with the result of
    [parseCode]. *)
Theorem parseCode_terminates :
  (forall s,
      exists decoded,
        parseCode s = decoded
        /\ forall fuel,
            String.length s < fuel -> parseCode_fuel fuel s = Some decoded)
  /\ (forall key lit s,
         In (key, lit) replacements ->
         includes key s = true ->
         String.length (replace key lit s) + 2 = String.length s).
Proof.
  split.
  - intros s. exists (pass (tbl_of escapes) s). split.
    + apply parseCode_pass.
    + intros fuel Hlen. now apply parseCode_fuel_pass.
  - intros key lit s Hin. simpl in Hin.
    repeat (destruct Hin as [[= <- <-]|Hin]; [apply replace_shortens|]).
    contradiction.
Qed.

Lemma parseCode_terminates_witness :
  parseCode_fuel 10 "a%3Db%26c" = Some (parseCode "a%3Db%26c")
  /\ String.length (replace "%3D" "=" "a%3Db") + 2 = String.length "a%3Db".
Proof.
  split.
  - destruct (proj1 parseCode_terminates "a%3Db%26c") as (decoded & <- & Hrun).
    apply Hrun. simpl. lia.
  - apply (proj2 parseCode_terminates).
    + simpl. tauto.
    + reflexivity.
Defined.

(** ** Further properties of parseCode *)

Lemma pass_same_length (tbl : table) (s : string) :
  String.length (pass tbl s) = String.length s -> pass tbl s = s.
Proof.
  induction s as [s IH] using string_length_ind.
  destruct s as [|c t]; [reflexivity|].
  rewrite pass_unfold.
  destruct (hit tbl (String c t)) as [r|] eqn:E.
  - apply hit_inv in E as (x & y & rest & [= -> ->] & _).
    cbn [drop]. pose proof (pass_length tbl rest). simpl. lia.
  - simpl. intros [= H]. f_equal. apply IH; [simpl; lia|assumption].
Qed.

(** X1. Decoding twice is decoding once. *)
Theorem parseCode_idempotent (s : string) :
  parseCode (parseCode s) = parseCode s.
Proof.
  unfold parseCode at 1. unfold parseCode_fuel.
  rewrite for_keys_unchanged; [reflexivity|].
  intros key Hin. now apply parseCode_leaves_no_escape.
Qed.

(** X2. Decoding never lengthens a string, and a result as long as the
    input is the input. *)
Theorem parseCode_length (s : string) :
  String.length (parseCode s) <= String.length s
  /\ (String.length (parseCode s) = String.length s -> parseCode s = s).
Proof.
  rewrite parseCode_pass. split.
  - apply pass_length.
  - apply pass_same_length.
Qed.

Lemma parseCode_length_witness :
  String.length (parseCode "a%41b") = String.length "a%41b"
  /\ parseCode "a%41b" = "a%41b".
Proof.
  split; [reflexivity|].
  exact (proj2 (parseCode_length "a%41b") eq_refl).
Defined.

(** X3. Decoding goes through the string from the left: an escape sequence
    of the table at the head gives its literal followed by the decoding of
    the rest, and a head character other than the percent sign is copied. *)
Theorem parseCode_head :
  (forall key lit s,
      In (key, lit) replacements -> parseCode (key ++ s) = lit ++ parseCode s)
  /\ (forall c s,
         c <> "%"%char -> parseCode (String c s) = String c (parseCode s)).
Proof.
  split.
  - intros key lit s Hin. rewrite !parseCode_pass. simpl in Hin.
    repeat (destruct Hin as [[= <- <-]|Hin]; [reflexivity|]).
    contradiction.
  - intros c s Hc. rewrite !parseCode_pass. now apply pass_other.
Qed.

Lemma parseCode_head_witness :
  parseCode ("%2F" ++ "a%2Fb") = "/" ++ parseCode "a%2Fb"
  /\ parseCode (String "a" "%2Fb") = String "a" (parseCode "%2Fb").
Proof.
  split.
  - apply (proj1 parseCode_head). simpl. tauto.
  - apply (proj2 parseCode_head). discriminate.
Defined.

Lemma escape_of_cases (c : ascii) :
  escape_of c replacements = String c ""
  \/ exists a b,
      escape_of c replacements = String "%" (String a (String b ""))
      /\ tbl_of escapes a b = Some c.
Proof.
  unfold replacements. cbn [escape_of String.eqb].
  repeat match goal with
         | |- context [Ascii.eqb ?x c] =>
             destruct (Ascii.eqb_spec x c) as [<-|_];
             [right; eexists _, _; split; reflexivity|]
         end.
  left. reflexivity.
Qed.

(** X4. Round trip: writing each of the ten reserved characters of a string
    as its escape sequence and decoding gives the string back, provided the
    string holds no percent sign. *)
Theorem parseCode_encode (s : string) :
  includes "%" s = false -> parseCode (encode s) = s.
Proof.
  rewrite parseCode_pass.
  induction s as [|c t IH]; [reflexivity|].
  cbn [includes]. rewrite prefix_one.
  destruct (Ascii.eqb_spec c "%") as [|Hc]; [discriminate|].
  intros Ht. cbn [encode].
  destruct (escape_of_cases c) as [->|(a & b & -> & Hab)].
  - cbn [append]. rewrite pass_other by assumption. now rewrite IH.
  - cbn [append]. rewrite pass_unfold, hit_escape, Hab. cbn [drop].
    now rewrite IH.
Qed.

Lemma parseCode_encode_witness :
  encode "AQB/x=y&z" = "AQB%2Fx%3Dy%26z"
  /\ parseCode (encode "AQB/x=y&z") = "AQB/x=y&z".
Proof.
  split; [reflexivity|].
  exact (parseCode_encode "AQB/x=y&z" eq_refl).
Defined.

(** ** Further properties of the code extraction *)

Lemma includes_one_cons (sep c : ascii) (s : string) :
  includes (String sep "") (String c s)
  = Ascii.eqb c sep || includes (String sep "") s.
Proof.
  cbn [includes]. rewrite prefix_one. now destruct (Ascii.eqb c sep).
Qed.

Lemma split_from_app (sep : ascii) (p : string) :
  includes (String sep "") p = false ->
  forall piece t,
    split_from sep piece (p ++ t) = split_from sep (piece ++ p) t.
Proof.
  induction p as [|c p IH]; intros Hp piece t.
  - now rewrite append_nil_r.
  - rewrite includes_one_cons in Hp. apply orb_false_iff in Hp as [Hc Hp].
    cbn [append split_from]. rewrite Hc, (IH Hp).
    now rewrite append_assoc.
Qed.

Lemma split_from_head (sep : ascii) (s : string) :
  forall piece,
    exists more, nth_error (split_from sep piece s) 0 = Some (piece ++ more).
Proof.
  induction s as [|c s IH]; intros piece; cbn [split_from].
  - exists "". now rewrite append_nil_r.
  - destruct (Ascii.eqb c sep).
    + exists "". now rewrite append_nil_r.
    + destruct (IH (piece ++ String c "")) as [more ->].
      exists (String c more). now rewrite append_assoc.
Qed.

Lemma split_from_sep (sep : ascii) (piece t : string) :
  split_from sep piece (String sep t) = piece :: split_from sep "" t.
Proof. cbn [split_from]. now rewrite Ascii.eqb_refl. Qed.

(** The first piece of a string that goes on with a separator, or ends,
    after [c]. *)
Lemma first_piece (sep : ascii) (c t : string) :
  includes (String sep "") c = false ->
  t = "" \/ (exists t', t = String sep t') ->
  nth_error (split sep (c ++ t)) 0 = Some c.
Proof.
  intros Hc Ht. unfold split. rewrite split_from_app by assumption.
  destruct Ht as [->|[t' ->]].
  - reflexivity.
  - now rewrite split_from_sep.
Qed.

Lemma extractFragment_amp (p c rest : string) :
  includes "=" p = false ->
  includes "=" c = false ->
  includes "&" c = false ->
  extractFragment (p ++ "=" ++ c ++ "&" ++ rest) = Returned c.
Proof.
  intros Hp Hc Hamp. unfold extractFragment. cbn zeta.
  assert (nth_error (split "=" (p ++ "=" ++ c ++ "&" ++ rest)) 1
          = nth_error (split "=" (c ++ "&" ++ rest)) 0) as ->.
  { unfold split. rewrite split_from_app by assumption.
    cbn [append]. now rewrite split_from_sep. }
  unfold split at 1.
  rewrite split_from_app by assumption. cbn [append].
  destruct (split_from_head "=" rest (c ++ "&")) as [more Hmore].
  assert (nth_error (split_from "=" c (String "&" rest)) 0
          = Some (c ++ String "&" more)) as ->.
  { cbn [split_from]. cbn [Ascii.eqb Bool.eqb].
    rewrite Hmore. now rewrite append_assoc. }
  rewrite first_piece; [reflexivity|assumption|].
  right. now exists more.
Qed.

(** X5. The extraction takes what stands between the first [=] and the next
    [&] or [=], or the end: for a prefix without [=] and a fragment without
    [=] and [&], the fragment is returned whether the query string ends
    after it, goes on with [&], or goes on with another [=]. *)
Theorem extractFragment_between (p c rest : string) :
  includes "=" p = false ->
  includes "=" c = false ->
  includes "&" c = false ->
  extractFragment (p ++ "=" ++ c) = Returned c
  /\ extractFragment (p ++ "=" ++ c ++ "&" ++ rest) = Returned c
  /\ extractFragment (p ++ "=" ++ c ++ "=" ++ rest) = Returned c.
Proof.
  intros Hp Hc Hamp.
  assert (forall t,
             nth_error (split "=" (p ++ "=" ++ t)) 1
             = nth_error (split "=" t) 0) as Hsecond.
  { intros t. unfold split. rewrite split_from_app by assumption.
    cbn [append]. now rewrite split_from_sep. }
  unfold extractFragment. cbn zeta. rewrite !Hsecond.
  split; [|split].
  - rewrite <- (append_nil_r c) at 1.
    rewrite first_piece by auto.
    rewrite <- (append_nil_r c) at 1.
    now rewrite first_piece by auto.
  - rewrite <- Hsecond. fold (extractFragment (p ++ "=" ++ c ++ "&" ++ rest)).
    now apply extractFragment_amp.
  - rewrite first_piece; [|assumption|right; now exists rest].
    rewrite <- (append_nil_r c) at 1.
    now rewrite first_piece by auto.
Qed.

Lemma extractFragment_between_witness :
  extractFragment ("?code" ++ "=" ++ "AQB%2Fx") = Returned "AQB%2Fx"
  /\ extractFragment ("?code" ++ "=" ++ "AQB%2Fx" ++ "&" ++ "state=s")
     = Returned "AQB%2Fx"
  /\ extractFragment ("?code" ++ "=" ++ "AQB%2Fx" ++ "=" ++ "=&state=s")
     = Returned "AQB%2Fx".
Proof.
  destruct (extractFragment_between "?code" "AQB%2Fx" "state=s"
              eq_refl eq_refl eq_refl) as (Hend & Hamp & _).
  destruct (extractFragment_between "?code" "AQB%2Fx" "=&state=s"
              eq_refl eq_refl eq_refl) as (_ & _ & Heq).
  exact (conj Hend (conj Hamp Heq)).
Defined.

Lemma includes_one_app (sep : ascii) (x y : string) :
  includes (String sep "") (x ++ y)
  = includes (String sep "") x || includes (String sep "") y.
Proof.
  induction x as [|c x IH].
  - cbn [append]. reflexivity.
  - cbn [append]. rewrite !includes_one_cons, IH. now rewrite orb_assoc.
Qed.

Lemma split_join (sep : ascii) (pieces : list string) :
  pieces <> [] ->
  (forall p, In p pieces -> includes (String sep "") p = false) ->
  split sep (join (String sep "") pieces) = pieces.
Proof.
  induction pieces as [|p pieces IH]; intros Hne Hall; [congruence|].
  assert (includes (String sep "") p = false) as Hp by (apply Hall; now left).
  destruct pieces as [|q pieces].
  - cbn [join]. unfold split. rewrite <- (append_nil_r p) at 1.
    now rewrite split_from_app.
  - change (join (String sep "") (p :: q :: pieces))
      with (p ++ String sep (join (String sep "") (q :: pieces))).
    unfold split. rewrite split_from_app by assumption.
    cbn [append]. rewrite split_from_sep. f_equal.
    apply IH; [discriminate|]. intros r Hr. apply Hall. now right.
Qed.

(** X6. Round trip with [split]: when no kept key and no kept value holds
    an [&], splitting the string that [constructURI] builds on [&] gives the
    kept pairs back, each as [key=value], in their order. *)
Theorem constructURI_split
  (num : Type) (num_to_string : num -> string)
  (params : Options) (skip : option string) :
  kept skip params <> [] ->
  (forall kv, In kv (kept skip params) ->
              includes "&" (fst kv) = false /\ includes "&" (snd kv) = false) ->
  exists uri,
    constructURI num_to_string (entries_of params) skip = Returned uri
    /\ split "&" uri = map pair_text (kept skip params).
Proof.
  intros Hne Hall. exists (build params skip). split.
  - apply constructURI_strings.
  - unfold build. apply split_join.
    + destruct (kept skip params); [congruence|discriminate].
    + intros p Hp. apply in_map_iff in Hp as (kv & <- & Hkv).
      destruct (Hall kv Hkv) as [Hk Hv].
      unfold pair_text. rewrite !includes_one_app, Hk, Hv. reflexivity.
Qed.

Lemma constructURI_split_witness :
  exists uri,
    constructURI decimal (entries_of example_options) (Some "client_secret")
    = Returned uri
    /\ split "&" uri
       = [ "client_id=123"; "redirect_uri=https://example.net/cb"; "state=xyz" ].
Proof.
  apply (constructURI_split Z decimal example_options (Some "client_secret")).
  - discriminate.
  - intros kv Hin. simpl in Hin.
    destruct Hin as [<-|[<-|[<-|[]]]]; split; reflexivity.
Defined.

(** ** Further properties of the exchange sequence *)

Lemma get_prop_own {num : Type} (v : jsval num) (k : string) :
  nullish v = false -> get_prop v k = Returned (own v k).
Proof.
  destruct v; cbn [nullish get_prop own]; try discriminate; try reflexivity.
  intros _. now destruct (lookup k props).
Qed.

Lemma get_prop_nullish {num : Type} (v : jsval num) (k : string) :
  nullish v = true -> get_prop v k = Thrown TypeError.
Proof.
  destruct v; cbn [nullish get_prop]; try discriminate; reflexivity.
Qed.

Lemma extractCode_sent (OGURI : string) :
  includes "=" OGURI = true -> extractCode OGURI = Returned (sent_code OGURI).
Proof.
  intros H. unfold sent_code.
  destruct (extractCode_with_eq OGURI H) as [code ->]. reflexivity.
Qed.

Section FlowRuns.

Context {num : Type}.
Variable num_to_string : num -> string.
Variable net : list string -> string -> Response num.

(** [getAuthData] on a value that has properties. *)
Lemma getAuthData_run (this : FacebookStrategy) (parsed : jsval num) (w : World) :
  nullish parsed = false ->
  getAuthData num_to_string net this parsed w
  = match ToString num_to_string (own parsed "access_token") with
    | Thrown err => (Returned (VError (IdentityLookupFailure err)), w)
    | Returned text =>
        let url := identityLookupURL this text in
        match net (fetched w) url with
        | NetworkError reason =>
            (Returned (VError (IdentityLookupFailure (Rejected reason))),
             after_fetch w url)
        | Resolved (NotJson reason) =>
            (Returned (VError (IdentityLookupFailure (Rejected reason))),
             after_fetch w url)
        | Resolved (Json data) =>
            if nullish data || nullish (own data "data")
            then (Returned (VError (IdentityLookupFailure TypeError)),
                  after_fetch w url)
            else
              (Returned
                 (VAuthData
                    (mkAuthData
                       (mkTokenData (own parsed "access_token")
                          (own parsed "token_type") (own parsed "expires_in"))
                       (mkUserInfo (name this)
                          (own (own data "data") "user_id")))),
               after_fetch w url)
        end
    end.
Proof.
  intros Hparsed. unfold getAuthData.
  unfold bind at 1. unfold lift at 1. rewrite (get_prop_own parsed) by assumption.
  unfold bind at 1. unfold lift at 1. rewrite (get_prop_own parsed) by assumption.
  unfold bind at 1. unfold lift at 1. rewrite (get_prop_own parsed) by assumption.
  cbn zeta. unfold try_catch. cbn [tokenData access_token].
  unfold bind at 1. unfold lift at 1.
  destruct (ToString num_to_string (own parsed "access_token")) as [text|err] eqn:Htext.
  - rewrite (identity_uri num_to_string this _ text Htext).
    unfold bind at 1. unfold fetch.
    fold (identityLookupURL this text). cbn zeta.
    fold (after_fetch w (identityLookupURL this text)).
    destruct (net (fetched w) (identityLookupURL this text))
      as [reason|[reason|data]]; try reflexivity.
    unfold bind at 1. unfold json, ret at 1.
    unfold bind at 1. unfold lift at 1.
    destruct (nullish data) eqn:Hdata.
    + now rewrite get_prop_nullish.
    + rewrite get_prop_own by assumption. cbn [orb].
      unfold bind at 1. unfold lift at 1.
      destruct (nullish (own data "data")) eqn:Hinner.
      * now rewrite get_prop_nullish.
      * now rewrite get_prop_own.
  - unfold constructURI. cbn [constructURI_loop is_skipped].
    rewrite Htext. reflexivity.
Qed.

(** [getAuthToken] on a query string without [error] and with an [=]. *)
Lemma getAuthToken_run (this : FacebookStrategy) (OGURI : string) (w : World) :
  includes "error" OGURI = false ->
  includes "=" OGURI = true ->
  getAuthToken num_to_string net this OGURI w
  = let url := tokenExchangeURL this (sent_code OGURI) in
    match net (fetched w) url with
    | NetworkError reason =>
        (Returned (VError (TokenExchangeFailure (Rejected reason))),
         after_fetch w url)
    | Resolved (NotJson reason) =>
        (Returned (VError (TokenExchangeFailure (Rejected reason))),
         after_fetch w url)
    | Resolved (Json data) =>
        if nullish data
        then (Returned (VError (TokenExchangeFailure TypeError)), after_fetch w url)
        else if strict_eq_string (own data "type") "oAuthException"
        then (Returned (VError OAuthExceptionError), after_fetch w url)
        else getAuthData num_to_string net this data (after_fetch w url)
    end.
Proof.
  intros Herr Heq.
  rewrite (getAuthToken_exchange num_to_string net this OGURI (sent_code OGURI) w
             Herr (extractCode_sent OGURI Heq)).
  cbn zeta.
  destruct (net (fetched w) (tokenExchangeURL this (sent_code OGURI)))
    as [reason|[reason|data]]; try reflexivity.
  destruct (nullish data) eqn:Hdata.
  - now rewrite get_prop_nullish.
  - now rewrite get_prop_own.
Qed.

(** What a run that reaches the token exchange leaves behind: a value that
    is not [undefined], the token request, and at most one request after
    it. *)
Lemma getAuthToken_requests (this : FacebookStrategy) (OGURI : string) (w : World) :
  includes "error" OGURI = false ->
  includes "=" OGURI = true ->
  exists v extra,
    getAuthToken num_to_string net this OGURI w
    = (Returned v,
       mkWorld (fetched w ++ tokenExchangeURL this (sent_code OGURI) :: extra)%list
               (redirected w))
    /\ v <> VUndefined /\ List.length extra <= 1.
Proof.
  intros Herr Heq. rewrite getAuthToken_run by assumption. cbn zeta.
  set (url := tokenExchangeURL this (sent_code OGURI)).
  assert (forall v, v <> VUndefined ->
            exists v' extra,
              (Returned v, after_fetch w url)
              = (Returned v', mkWorld (fetched w ++ url :: extra)%list (redirected w))
              /\ v' <> (@VUndefined num) /\ List.length extra <= 1) as Hone.
  { intros v Hv. exists v, []. repeat split; [assumption|simpl; lia]. }
  assert (forall v url2, v <> VUndefined ->
            exists v' extra,
              (Returned v, after_fetch (after_fetch w url) url2)
              = (Returned v', mkWorld (fetched w ++ url :: extra)%list (redirected w))
              /\ v' <> (@VUndefined num) /\ List.length extra <= 1) as Htwo.
  { intros v url2 Hv. exists v, [url2]. repeat split; [|assumption|simpl; lia].
    unfold after_fetch. cbn [fetched redirected]. now rewrite <- app_assoc. }
  destruct (net (fetched w) url) as [reason|[reason|data]];
    try (apply Hone; discriminate).
  destruct (nullish data) eqn:Hdata; [apply Hone; discriminate|].
  destruct (strict_eq_string (own data "type") "oAuthException");
    [apply Hone; discriminate|].
  rewrite getAuthData_run by assumption.
  destruct (ToString num_to_string (own data "access_token")) as [text|err];
    [|apply Hone; discriminate].
  cbn zeta.
  destruct (net (fetched (after_fetch w url)) (identityLookupURL this text))
    as [reason|[reason|d]]; try (apply Htwo; discriminate).
  destruct (nullish d || nullish (own d "data")); apply Htwo; discriminate.
Qed.

End FlowRuns.

Lemma getAuthToken_on_error {num : Type} (num_to_string : num -> string)
  (net : list string -> string -> Response num)
  (this : FacebookStrategy) (OGURI : string) (w : World) :
  includes "error" OGURI = true ->
  getAuthToken num_to_string net this OGURI w
  = (Returned (VError AuthorizationDenied), w).
Proof.
  intros H. unfold getAuthToken. now rewrite H.
Qed.

Lemma getAuthToken_without_eq {num : Type} (num_to_string : num -> string)
  (net : list string -> string -> Response num)
  (this : FacebookStrategy) (OGURI : string) (w : World) :
  includes "error" OGURI = false ->
  includes "=" OGURI = false ->
  getAuthToken num_to_string net this OGURI w = (Thrown TypeError, w).
Proof.
  intros Herr Heq. unfold getAuthToken. rewrite Herr.
  unfold bind, lift. now rewrite extractCode_without_eq.
Qed.

(** X7. [getAuthToken] throws exactly when the query string holds neither
    [error] nor [=]; whatever the provider answers, every other run resolves
    to a value, and that value is never [undefined]. *)
Theorem getAuthToken_throws_only_without_eq
  (num : Type) (num_to_string : num -> string)
  (net : list string -> string -> Response num)
  (this : FacebookStrategy) (OGURI : string) (w : World) :
  ((exists e, fst (getAuthToken num_to_string net this OGURI w) = Thrown e)
   <-> includes "error" OGURI = false /\ includes "=" OGURI = false)
  /\ fst (getAuthToken num_to_string net this OGURI w) <> Returned VUndefined.
Proof.
  destruct (includes "error" OGURI) eqn:Herr.
  - rewrite getAuthToken_on_error by assumption. cbn [fst].
    split; [split|discriminate].
    + intros [e [=]].
    + intros [[=] _].
  - destruct (includes "=" OGURI) eqn:Heq.
    + destruct (getAuthToken_requests num_to_string net this OGURI w Herr Heq)
        as (v & extra & -> & Hv & _).
      cbn [fst]. split; [split|congruence].
      * intros [e [=]].
      * intros [_ [=]].
    + rewrite getAuthToken_without_eq by assumption. cbn [fst].
      split; [split|discriminate]; eauto.
Qed.

Lemma getAuthToken_throws_only_without_eq_witness :
  (exists e,
      fst (getAuthToken decimal (scripted []) example_strategy "?codes" empty_world)
      = Thrown e)
  /\ forall e,
      fst (getAuthToken decimal (scripted []) example_strategy "?code=abc"
             empty_world)
      <> Thrown e.
Proof.
  split.
  - apply (proj1 (getAuthToken_throws_only_without_eq Z decimal (scripted [])
                    example_strategy "?codes" empty_world)).
    split; reflexivity.
  - intros e He.
    destruct (proj1 (proj1 (getAuthToken_throws_only_without_eq Z decimal
                              (scripted []) example_strategy "?code=abc"
                              empty_world))
                (ex_intro _ e He)) as [_ Heq].
    discriminate Heq.
Defined.

(** X8. [getAuthToken] never redirects and makes at most two requests, which
    it adds after the ones made before; it makes none when the query string
    holds [error] or holds no [=]. *)
Theorem getAuthToken_effects
  (num : Type) (num_to_string : num -> string)
  (net : list string -> string -> Response num)
  (this : FacebookStrategy) (OGURI : string) (w : World) :
  exists extra,
    snd (getAuthToken num_to_string net this OGURI w)
    = mkWorld (fetched w ++ extra)%list (redirected w)
    /\ List.length extra <= 2
    /\ (includes "error" OGURI = true \/ includes "=" OGURI = false ->
        extra = []).
Proof.
  assert (w = mkWorld (fetched w ++ [])%list (redirected w)) as Hw
    by (destruct w; cbn [fetched redirected]; now rewrite app_nil_r).
  destruct (includes "error" OGURI) eqn:Herr.
  - exists []. rewrite getAuthToken_on_error by assumption. cbn [snd].
    repeat split; [exact Hw|simpl; lia].
  - destruct (includes "=" OGURI) eqn:Heq.
    + destruct (getAuthToken_requests num_to_string net this OGURI w Herr Heq)
        as (v & extra & -> & _ & Hlen).
      exists (tokenExchangeURL this (sent_code OGURI) :: extra).
      cbn [snd]. repeat split; [simpl; lia|].
      intros [[=]|[=]].
    + exists []. rewrite getAuthToken_without_eq by assumption. cbn [snd].
      repeat split; [exact Hw|simpl; lia].
Qed.

Lemma getAuthToken_effects_witness :
  exists extra,
    snd (getAuthToken decimal granting_net example_strategy
           "?code=abc&error_reason=user_denied" empty_world)
    = mkWorld ([] ++ extra)%list []
    /\ extra = [].
Proof.
  destruct (getAuthToken_effects Z decimal granting_net example_strategy
              "?code=abc&error_reason=user_denied" empty_world)
    as (extra & Hsnd & _ & Hnone).
  exists extra. split; [exact Hsnd|].
  apply Hnone. left. reflexivity.
Defined.

(** X9. When the token request fails, [getAuthToken] returns the
    token-exchange error with the cause and stops after that one request:
    for a rejected [fetch] or a body that is not JSON the cause is the
    rejection, for a JSON body [null] it is the [TypeError] of reading
    [type] off it. *)
Theorem token_exchange_failure
  (num : Type) (num_to_string : num -> string)
  (net : list string -> string -> Response num)
  (this : FacebookStrategy) (OGURI : string) (w : World) :
  includes "error" OGURI = false ->
  includes "=" OGURI = true ->
  let url := tokenExchangeURL this (sent_code OGURI) in
  (forall reason,
      net (fetched w) url = NetworkError reason
      \/ net (fetched w) url = Resolved (NotJson reason) ->
      getAuthToken num_to_string net this OGURI w
      = (Returned (VError (TokenExchangeFailure (Rejected reason))),
         after_fetch w url))
  /\ (forall data,
         net (fetched w) url = Resolved (Json data) ->
         nullish data = true ->
         getAuthToken num_to_string net this OGURI w
         = (Returned (VError (TokenExchangeFailure TypeError)),
            after_fetch w url)).
Proof.
  intros Herr Heq url. split.
  - intros reason Hnet. rewrite getAuthToken_run by assumption.
    cbn zeta. fold url. now destruct Hnet as [->| ->].
  - intros data Hnet Hdata. rewrite getAuthToken_run by assumption.
    cbn zeta. fold url. now rewrite Hnet, Hdata.
Qed.

Lemma token_exchange_failure_witness :
  getAuthToken decimal (scripted [NetworkError "down"]) example_strategy
    "?code=abc" empty_world
  = (Returned (VError (TokenExchangeFailure (Rejected "down"))),
     mkWorld [tokenExchangeURL example_strategy "abc"] [])
  /\ getAuthToken decimal (scripted [Resolved (Json JNull)]) example_strategy
       "?code=abc" empty_world
     = (Returned (VError (TokenExchangeFailure TypeError)),
        mkWorld [tokenExchangeURL example_strategy "abc"] []).
Proof.
  split.
  - apply (proj1 (token_exchange_failure Z decimal (scripted [NetworkError "down"])
                    example_strategy "?code=abc" empty_world eq_refl eq_refl)
             "down").
    left. reflexivity.
  - apply (proj2 (token_exchange_failure Z decimal (scripted [Resolved (Json JNull)])
                    example_strategy "?code=abc" empty_world eq_refl eq_refl)
             JNull); reflexivity.
Defined.

(** X10. When the token response is accepted and the identity lookup fails,
    [getAuthToken] returns the identity-lookup error with the cause, after
    both requests: the rejection for a rejected [fetch] or a body that is
    not JSON, the [TypeError] of reading [data.user_id] for a JSON answer
    that is [null] or whose [data] is absent or [null]. *)
Theorem identity_lookup_failure
  (num : Type) (num_to_string : num -> string)
  (net : list string -> string -> Response num)
  (this : FacebookStrategy) (OGURI : string) (w : World)
  (token : jsval num) (text : string) :
  includes "error" OGURI = false ->
  includes "=" OGURI = true ->
  let url := tokenExchangeURL this (sent_code OGURI) in
  let lookup_url := identityLookupURL this text in
  net (fetched w) url = Resolved (Json token) ->
  nullish token = false ->
  strict_eq_string (own token "type") "oAuthException" = false ->
  ToString num_to_string (own token "access_token") = Returned text ->
  (forall reason,
      net (fetched w ++ [url])%list lookup_url = NetworkError reason
      \/ net (fetched w ++ [url])%list lookup_url = Resolved (NotJson reason) ->
      getAuthToken num_to_string net this OGURI w
      = (Returned (VError (IdentityLookupFailure (Rejected reason))),
         mkWorld (fetched w ++ [url; lookup_url])%list (redirected w)))
  /\ (forall identity,
         net (fetched w ++ [url])%list lookup_url = Resolved (Json identity) ->
         nullish identity || nullish (own identity "data") = true ->
         getAuthToken num_to_string net this OGURI w
         = (Returned (VError (IdentityLookupFailure TypeError)),
            mkWorld (fetched w ++ [url; lookup_url])%list (redirected w))).
Proof.
  intros Herr Heq url lookup_url Hnet Htoken Htype Htext.
  assert (after_fetch (after_fetch w url) lookup_url
          = mkWorld (fetched w ++ [url; lookup_url])%list (redirected w)) as Hw
    by (unfold after_fetch; cbn [fetched redirected]; now rewrite <- app_assoc).
  assert (getAuthToken num_to_string net this OGURI w
          = getAuthData num_to_string net this token (after_fetch w url)) as ->.
  { rewrite getAuthToken_run by assumption. cbn zeta. fold url.
    now rewrite Hnet, Htoken, Htype. }
  rewrite getAuthData_run by assumption. rewrite Htext. cbn zeta.
  fold lookup_url. cbn [after_fetch fetched]. fold (after_fetch w url).
  split.
  - intros reason Hfail. rewrite <- Hw. now destruct Hfail as [->| ->].
  - intros identity Hid Hnull. now rewrite Hid, Hnull, <- Hw.
Qed.

Lemma identity_lookup_failure_witness :
  getAuthToken decimal
    (scripted [Resolved (Json (token_response 3600%Z)); Resolved (Json (JObj []))])
    example_strategy "?code=abc" empty_world
  = (Returned (VError (IdentityLookupFailure TypeError)),
     mkWorld [ tokenExchangeURL example_strategy "abc";
               identityLookupURL example_strategy "T" ] [])
  /\ getAuthToken decimal
       (scripted [Resolved (Json (token_response 3600%Z)); NetworkError "down"])
       example_strategy "?code=abc" empty_world
     = (Returned (VError (IdentityLookupFailure (Rejected "down"))),
        mkWorld [ tokenExchangeURL example_strategy "abc";
                  identityLookupURL example_strategy "T" ] []).
Proof.
  split.
  - apply (proj2 (identity_lookup_failure Z decimal
                    (scripted [Resolved (Json (token_response 3600%Z));
                               Resolved (Json (JObj []))])
                    example_strategy "?code=abc" empty_world
                    (token_response 3600%Z) "T"
                    eq_refl eq_refl eq_refl eq_refl eq_refl eq_refl)
             (JObj [])); reflexivity.
  - apply (proj1 (identity_lookup_failure Z decimal
                    (scripted [Resolved (Json (token_response 3600%Z));
                               NetworkError "down"])
                    example_strategy "?code=abc" empty_world
                    (token_response 3600%Z) "T"
                    eq_refl eq_refl eq_refl eq_refl eq_refl eq_refl)
             "down").
    left. reflexivity.
Defined.

(** X11. Success in general: for a token response that has properties, is
    not typed [oAuthException] and whose [access_token] prints as [text],
    and an identity answer whose [data] has properties, [getAuthToken]
    resolves to the record that holds the three token fields as the response
    had them ([undefined] for an absent one, nothing of its other fields),
    the instance's name as provider and [data.user_id] as user id; the
    identity lookup is made with [text] as input token. *)
Theorem exchange_success
  (num : Type) (num_to_string : num -> string)
  (net : list string -> string -> Response num)
  (this : FacebookStrategy) (OGURI : string) (w : World)
  (token identity : jsval num) (text : string) :
  includes "error" OGURI = false ->
  includes "=" OGURI = true ->
  let url := tokenExchangeURL this (sent_code OGURI) in
  let lookup_url := identityLookupURL this text in
  net (fetched w) url = Resolved (Json token) ->
  nullish token = false ->
  strict_eq_string (own token "type") "oAuthException" = false ->
  ToString num_to_string (own token "access_token") = Returned text ->
  net (fetched w ++ [url])%list lookup_url = Resolved (Json identity) ->
  nullish identity = false ->
  nullish (own identity "data") = false ->
  getAuthToken num_to_string net this OGURI w
  = (Returned
       (VAuthData
          (mkAuthData
             (mkTokenData (own token "access_token") (own token "token_type")
                (own token "expires_in"))
             (mkUserInfo (name this) (own (own identity "data") "user_id")))),
     mkWorld (fetched w ++ [url; lookup_url])%list (redirected w)).
Proof.
  intros Herr Heq url lookup_url Hnet Htoken Htype Htext Hid Hidentity Hdata.
  assert (after_fetch (after_fetch w url) lookup_url
          = mkWorld (fetched w ++ [url; lookup_url])%list (redirected w)) as <-
    by (unfold after_fetch; cbn [fetched redirected]; now rewrite <- app_assoc).
  rewrite getAuthToken_run by assumption. cbn zeta. fold url.
  rewrite Hnet, Htoken, Htype.
  rewrite getAuthData_run by assumption. rewrite Htext. cbn zeta.
  fold lookup_url.
  change (fetched (after_fetch w url)) with (fetched w ++ [url])%list.
  now rewrite Hid, Hidentity, Hdata.
Qed.

Lemma exchange_success_witness :
  getAuthToken decimal
    (scripted
       [ Resolved (Json (JObj [ ("access_token", JStr "T"); ("scope", JStr "email") ]));
         Resolved (Json (JObj [ ("data", JObj [ ("app_id", JStr "123") ]) ])) ])
    example_strategy "?code=abc" empty_world
  = (Returned
       (VAuthData
          (mkAuthData (mkTokenData (JStr "T") JUndefined JUndefined)
             (mkUserInfo "facebook" JUndefined))),
     mkWorld [ tokenExchangeURL example_strategy "abc";
               identityLookupURL example_strategy "T" ] []).
Proof.
  exact (exchange_success Z decimal _ example_strategy "?code=abc" empty_world
           (JObj [ ("access_token", JStr "T"); ("scope", JStr "email") ])
           (JObj [ ("data", JObj [ ("app_id", JStr "123") ]) ]) "T"
           eq_refl eq_refl eq_refl eq_refl eq_refl eq_refl eq_refl eq_refl eq_refl).
Defined.

(** X12. A token response object without [access_token] and without a
    top-level [type] equal to [oAuthException] (the provider's error objects,
    which nest the type under [error], are such) does not stop the exchange:
    the identity lookup is still requested, with [undefined] as input
    token. *)
Theorem missing_access_token_still_looks_up
  (num : Type) (num_to_string : num -> string)
  (net : list string -> string -> Response num)
  (this : FacebookStrategy) (OGURI : string) (w : World)
  (props : list (string * jsval num)) :
  includes "error" OGURI = false ->
  includes "=" OGURI = true ->
  net (fetched w) (tokenExchangeURL this (sent_code OGURI))
  = Resolved (Json (JObj props)) ->
  lookup "access_token" props = None ->
  strict_eq_string (own (JObj props) "type") "oAuthException" = false ->
  exists v,
    getAuthToken num_to_string net this OGURI w
    = (Returned v,
       mkWorld (fetched w ++ [ tokenExchangeURL this (sent_code OGURI);
                               identityLookupURL this "undefined" ])%list
               (redirected w)).
Proof.
  intros Herr Heq Hnet Hnone Htype.
  rewrite getAuthToken_run by assumption. cbn zeta.
  rewrite Hnet. cbn [nullish]. rewrite Htype.
  rewrite getAuthData_run by reflexivity.
  cbn [own]. rewrite Hnone. cbn [ToString]. cbn zeta.
  set (url := tokenExchangeURL this (sent_code OGURI)).
  set (lookup_url := identityLookupURL this "undefined").
  assert (after_fetch (after_fetch w url) lookup_url
          = mkWorld (fetched w ++ [url; lookup_url])%list (redirected w)) as <-
    by (unfold after_fetch; cbn [fetched redirected]; now rewrite <- app_assoc).
  destruct (net (fetched (after_fetch w url)) lookup_url)
    as [reason|[reason|d]]; eauto.
  destruct (nullish d || _); eauto.
Qed.

Lemma missing_access_token_still_looks_up_witness :
  exists v,
    getAuthToken decimal
      (scripted
         [ Resolved (Json (JObj [ ("error",
                                   JObj [ ("message", JStr "Invalid code");
                                          ("type", JStr "OAuthException") ]) ])) ])
      example_strategy "?code=abc" empty_world
    = (Returned v,
       mkWorld [ tokenExchangeURL example_strategy "abc";
                 identityLookupURL example_strategy "undefined" ] []).
Proof.
  exact (missing_access_token_still_looks_up Z decimal
           (scripted
              [ Resolved (Json (JObj [ ("error",
                                        JObj [ ("message", JStr "Invalid code");
                                               ("type", JStr "OAuthException") ]) ])) ])
           example_strategy "?code=abc" empty_world
           [ ("error", JObj [ ("message", JStr "Invalid code");
                              ("type", JStr "OAuthException") ]) ]
           eq_refl eq_refl eq_refl eq_refl eq_refl).
Defined.

(** X13. The token request carries the decoded code: for a query string
    [?code=c&...] without [error], where [c] holds no [=] and no [&], the
    first request of [getAuthToken] is the token exchange with
    [parseCode c], whatever the provider answers. *)
Theorem token_request_carries_code
  (num : Type) (num_to_string : num -> string)
  (net : list string -> string -> Response num)
  (this : FacebookStrategy) (c rest : string) (w : World) :
  includes "=" c = false ->
  includes "&" c = false ->
  includes "error" ("?code=" ++ c ++ "&" ++ rest) = false ->
  exists extra,
    fetched (snd (getAuthToken num_to_string net this
                    ("?code=" ++ c ++ "&" ++ rest) w))
    = (fetched w ++ tokenExchangeURL this (parseCode c) :: extra)%list.
Proof.
  intros Hc Hamp Herr.
  assert (includes "=" ("?code=" ++ c ++ "&" ++ rest) = true) as Heq
    by apply includes_eq_code.
  assert (sent_code ("?code=" ++ c ++ "&" ++ rest) = parseCode c) as Hsent.
  { unfold sent_code, extractCode.
    change ("?code=" ++ c ++ "&" ++ rest)
      with ("?code" ++ "=" ++ c ++ "&" ++ rest).
    now rewrite extractFragment_amp. }
  destruct (getAuthToken_requests num_to_string net this _ w Herr Heq)
    as (v & extra & -> & _ & _).
  exists extra. cbn [snd fetched]. now rewrite Hsent.
Qed.

Lemma token_request_carries_code_witness :
  exists extra,
    fetched (snd (getAuthToken decimal granting_net example_strategy
                    ("?code=" ++ "AQB%2Fx%3D" ++ "&" ++ "state=xyz") empty_world))
    = ([] ++ tokenExchangeURL example_strategy "AQB/x=" :: extra)%list.
Proof.
  exact (token_request_carries_code Z decimal granting_net example_strategy
           "AQB%2Fx%3D" "state=xyz" empty_world eq_refl eq_refl eq_refl).
Defined.

(** ** Further properties of the router *)

(** X14. For an instance built by the constructor, the router answers a
    request without query string by one redirect, to the authorization
    endpoint followed by the configured pairs joined by [&], and by no
    request; no pair with the key [client_secret] is among them. *)
Theorem router_authorizes
  (num : Type) (num_to_string : num -> string)
  (net : list string -> string -> Response num)
  (opts : Options) (this : FacebookStrategy) (w : World) :
  constructor num_to_string opts = Returned this ->
  router num_to_string net this "" w
  = (Returned VUndefined,
     mkWorld (fetched w)
       (redirected w
        ++ [ ("https://www.facebook.com/v9.0/dialog/oauth?"
              ++ join "&" (map pair_text (kept (Some "client_secret") opts)))%string
           ])%list)
  /\ forall secret,
      ~ In ("client_secret", secret) (kept (Some "client_secret") opts).
Proof.
  intros Hthis.
  apply constructor_fields in Hthis as (_ & _ & Hauth & _ & _ & Huri).
  split.
  - unfold router. cbn [String.eqb]. unfold authorize, redirect.
    now rewrite Hauth, Huri.
  - intros secret Hin. unfold kept in Hin.
    apply filter_In in Hin as [_ Hin]. discriminate Hin.
Qed.

Lemma router_authorizes_witness :
  router decimal granting_net example_strategy "" empty_world
  = (Returned VUndefined,
     mkWorld []
       [ "https://www.facebook.com/v9.0/dialog/oauth?client_id=123&redirect_uri=https://example.net/cb&state=xyz" ]).
Proof.
  exact (proj1 (router_authorizes Z decimal granting_net example_options
                  example_strategy empty_world eq_refl)).
Defined.

(** X15. The router dispatches on the characters 2 to 5 of the query string
    alone: when they are [code] it does what [getAuthToken] does, and for
    any other query string that is not empty (a callback whose [code] is not
    the first parameter, a denial) it resolves to [undefined] without a
    request or a redirect. *)
Theorem router_dispatch
  (num : Type) (num_to_string : num -> string)
  (net : list string -> string -> Response num)
  (this : FacebookStrategy) (search : string) (w : World) :
  (slice 1 5 search = "code" ->
   router num_to_string net this search w
   = getAuthToken num_to_string net this search w)
  /\ (search <> "" ->
      slice 1 5 search <> "code" ->
      router num_to_string net this search w = (Returned VUndefined, w)).
Proof.
  unfold router. split.
  - intros Hcode.
    destruct (String.eqb_spec search "") as [->|_]; [discriminate Hcode|].
    now rewrite Hcode.
  - intros Hne Hcode.
    destruct (String.eqb_spec search "") as [|_]; [contradiction|].
    now destruct (String.eqb_spec (slice 1 5 search) "code").
Qed.

Lemma router_dispatch_witness :
  router decimal granting_net example_strategy "?state=xyz&code=abc" empty_world
  = (Returned VUndefined, empty_world)
  /\ router decimal granting_net example_strategy "?codex=1" empty_world
     = getAuthToken decimal granting_net example_strategy "?codex=1" empty_world.
Proof.
  split.
  - apply (proj2 (router_dispatch Z decimal granting_net example_strategy
                    "?state=xyz&code=abc" empty_world)); discriminate.
  - apply (proj1 (router_dispatch Z decimal granting_net example_strategy
                    "?codex=1" empty_world)).
    reflexivity.
Defined.

(** ** constructURI: the order of the pairs and the ends of the string *)

Lemma kept_appears (skip : option string) (params : Options) :
  kept skip params = filter (appears skip) params.
Proof.
  unfold kept. apply filter_ext. intros kv.
  unfold is_skipped, appears. now destruct skip.
Qed.

Lemma join_concat (sep : string) (pieces : list string) :
  join sep pieces = String.concat sep pieces.
Proof.
  induction pieces as [|p pieces IH]; [reflexivity|].
  cbn [join String.concat]. destruct pieces; [reflexivity|]. now rewrite IH.
Qed.

Lemma index_entries_plain {V : Type} (inserted : list (string * V)) :
  (forall kv, In kv inserted -> array_index (fst kv) = None) ->
  index_entries inserted = [] /\ filter is_plain_key inserted = inserted.
Proof.
  induction inserted as [|kv rest IH]; intros Hplain; [now split|].
  destruct IH as [IH1 IH2]; [intros x Hx; apply Hplain; now right|].
  cbn [index_entries filter]. unfold is_plain_key at 1.
  rewrite (Hplain kv) by now left.
  split; [assumption|now rewrite IH2].
Qed.

Lemma Object_entries_plain {V : Type} (inserted : list (string * V)) :
  (forall kv, In kv inserted -> array_index (fst kv) = None) ->
  Object_entries inserted = inserted.
Proof.
  intros Hplain. unfold Object_entries.
  destruct (index_entries_plain inserted Hplain) as [-> ->]. reflexivity.
Qed.

Lemma Object_entries_single {V : Type} (kv : string * V) :
  Object_entries [kv] = [kv].
Proof.
  unfold Object_entries, is_plain_key. cbn [index_entries filter].
  destruct (array_index (fst kv)); reflexivity.
Qed.

Lemma first_char_app (x y : string) :
  first_char (x ++ y)
  = match first_char x with Some c => Some c | None => first_char y end.
Proof. destruct x; reflexivity. Qed.

Lemma last_char_none (s : string) : last_char s = None -> s = "".
Proof.
  induction s as [|c s IH]; [reflexivity|].
  destruct s as [|d s]; [discriminate|].
  change (last_char (String c (String d s))) with (last_char (String d s)).
  intros H. apply IH in H. discriminate.
Qed.

Lemma last_char_app (x y : string) :
  last_char (x ++ y)
  = match last_char y with Some c => Some c | None => last_char x end.
Proof.
  induction x as [|c x IH].
  - cbn [append]. now destruct (last_char y).
  - cbn [append]. destruct x as [|d x].
    + cbn [append] in *. destruct y as [|e y]; [reflexivity|].
      change (last_char (String c (String e y))) with (last_char (String e y)).
      destruct (last_char (String e y)) eqn:E; [reflexivity|].
      apply last_char_none in E. discriminate.
    + change (last_char (String c (String d x ++ y)))
        with (last_char (String d x ++ y)).
      rewrite IH. reflexivity.
Qed.

Lemma first_char_pair (kv : string * string) :
  first_char (pair_text kv) = Some "&"%char
  <-> first_char (fst kv) = Some "&"%char.
Proof.
  unfold pair_text. rewrite first_char_app.
  destruct (first_char (fst kv)); [reflexivity|].
  cbn [append first_char]. split; discriminate.
Qed.

Lemma last_char_pair (kv : string * string) :
  last_char (pair_text kv) = Some "&"%char
  <-> last_char (snd kv) = Some "&"%char.
Proof.
  unfold pair_text. rewrite !last_char_app.
  destruct (last_char (snd kv)); [reflexivity|].
  cbn [last_char]. split; discriminate.
Qed.

Lemma pair_text_not_empty (kv : string * string) : last_char (pair_text kv) <> None.
Proof.
  unfold pair_text. rewrite !last_char_app.
  destruct (last_char (snd kv)); discriminate.
Qed.

Lemma first_char_concat (sep p : string) (pieces : list string) :
  first_char p <> None ->
  first_char (String.concat sep (p :: pieces)) = first_char p.
Proof.
  intros Hp. destruct pieces as [|q pieces]; [reflexivity|].
  cbn [String.concat]. rewrite first_char_app.
  destruct (first_char p); [reflexivity|contradiction].
Qed.

Lemma last_char_concat (sep p : string) (front : list string) :
  last_char p <> None ->
  last_char (String.concat sep (front ++ [p])%list) = last_char p.
Proof.
  intros Hp. induction front as [|x front IH]; [reflexivity|].
  change ((x :: front) ++ [p])%list with (x :: (front ++ [p]))%list.
  destruct (front ++ [p])%list as [|q rest] eqn:E.
  - destruct front; discriminate.
  - cbn [String.concat] in *. rewrite !last_char_app, IH.
    destruct (last_char p); [reflexivity|contradiction].
Qed.

Section Ends.

Variables (skip : option string) (params : Options).

Let pairs : Options := filter (appears skip) params.
Let uri : string := String.concat "&" (map pair_text pairs).

Lemma uri_begins_with_separator :
  first_char uri = Some "&"%char
  <-> exists kv, hd_error pairs = Some kv /\ first_char (fst kv) = Some "&"%char.
Proof.
  unfold uri. destruct pairs as [|kv rest].
  - split; [discriminate|]. intros (kv & [=] & _).
  - cbn [map hd_error]. rewrite first_char_concat.
    + rewrite first_char_pair. split.
      * intros H. now exists kv.
      * now intros (kv' & [= <-] & H).
    + unfold pair_text. rewrite first_char_app.
      destruct (first_char (fst kv)); discriminate.
Qed.

Lemma uri_ends_with_separator :
  last_char uri = Some "&"%char
  <-> exists front kv,
      pairs = (front ++ [kv])%list /\ last_char (snd kv) = Some "&"%char.
Proof.
  unfold uri. destruct pairs as [|kv0 rest0] eqn:E.
  - split; [discriminate|]. intros (front & kv & H & _).
    destruct front; discriminate.
  - destruct (@exists_last _ (kv0 :: rest0)) as (front & kv & ->);
      [discriminate|].
    rewrite map_app. cbn [map].
    rewrite last_char_concat by apply pair_text_not_empty.
    rewrite last_char_pair. split.
    + intros H. now exists front, kv.
    + intros (front' & kv' & Heq & H).
      apply app_inj_tail in Heq as [_ <-]. exact H.
Qed.

End Ends.

(** C2, as amended. For every string-to-string mapping, given by its
    properties in the order of their creation, and every optional skipped
    key, [constructURI] returns the pairs whose key is not the skipped one,
    each exactly once as [key=value] and joined by [&], in the order
    [Object.entries] yields them; that is the order of creation when no key
    is an array index.  The string begins with [&] exactly when the first
    such key does and ends with [&] exactly when the last such value does:
    no separator of its own stands at either end.  The empty mapping and a
    single entry whose key is skipped give the empty string. *)
Theorem constructURI_query
  (num : Type) (num_to_string : num -> string) :
  (forall (inserted : Options) (skip : option string),
      let entries := Object_entries inserted in
      let pairs := filter (appears skip) entries in
      exists uri,
        constructURI num_to_string (entries_of entries) skip = Returned uri
        /\ uri = String.concat "&" (map pair_text pairs)
        /\ (first_char uri = Some "&"%char
            <-> exists kv,
                hd_error pairs = Some kv /\ first_char (fst kv) = Some "&"%char)
        /\ (last_char uri = Some "&"%char
            <-> exists front kv,
                pairs = (front ++ [kv])%list
                /\ last_char (snd kv) = Some "&"%char)
        /\ ((forall kv, In kv inserted -> array_index (fst kv) = None) ->
            entries = inserted))
  /\ (forall skip : option string,
         constructURI num_to_string (entries_of (Object_entries [])) skip
         = Returned "")
  /\ (forall key value : string,
         constructURI num_to_string (entries_of (Object_entries [(key, value)]))
           (Some key)
         = Returned "").
Proof.
  split; [|split].
  - intros inserted skip entries pairs.
    exists (String.concat "&" (map pair_text pairs)).
    split; [|split; [reflexivity|split; [|split]]].
    + rewrite constructURI_strings. unfold build.
      now rewrite kept_appears, join_concat.
    + apply uri_begins_with_separator.
    + apply uri_ends_with_separator.
    + apply Object_entries_plain.
  - intros skip. reflexivity.
  - intros key value. rewrite Object_entries_single, constructURI_strings.
    unfold build. rewrite kept_appears. cbn [filter appears fst].
    now rewrite String.eqb_refl.
Qed.

Lemma constructURI_query_witness :
  constructURI decimal (entries_of (Object_entries example_options))
    (Some "client_secret")
  = Returned "client_id=123&redirect_uri=https://example.net/cb&state=xyz"
  /\ Object_entries example_options = example_options.
Proof.
  destruct (proj1 (constructURI_query Z decimal) example_options
              (Some "client_secret"))
    as (uri & Hrun & Huri & _ & _ & Hplain).
  split.
  - rewrite Hrun, Huri. reflexivity.
  - apply Hplain. intros kv Hin. simpl in Hin.
    destruct Hin as [<-|[<-|[<-|[<-|[]]]]]; reflexivity.
Defined.

(** C2, as stated, fails in two ways.  A value that ends in [&] leaves an
    [&] at the end of the string, and a key that is an array index is put
    before the keys created earlier. *)
Lemma constructURI_query_counterexample :
  (constructURI decimal (entries_of (Object_entries [("a", "x&")])) None
   = Returned "a=x&"
   /\ last_char "a=x&" = Some "&"%char)
  /\ (constructURI decimal
        (entries_of (Object_entries [("b", "1"); ("2", "x"); ("a", "3")])) None
      = Returned "2=x&b=1&a=3"
      /\ "2=x&b=1&a=3"
         <> String.concat "&" (map pair_text [("b", "1"); ("2", "x"); ("a", "3")])).
Proof.
  repeat split. discriminate.
Qed.
